(** * SafeReach: the tracking and geofence-arrival engine of frontend/app.js

    A shallow embedding of the location-tracking part of [frontend/app.js]:
    [Utils.calculateDistance], [LocationService], the wake-lock helpers, the
    visibility / app-state listeners and [TrackingService].

    Conventions of the embedding.
    - JavaScript numbers that carry coordinates and distances are read as real
      numbers ([R]); [Math.sin], [Math.cos], [Math.asin], [Math.sqrt] and
      [Math.PI] are the real functions and constant of the same name.
    - The single shared [AppState] object and the module variable [wakeLock]
      are fields of one explicit [World], threaded through every function.
    - An [async] function is cut at its [await]s.  The code up to the first
      [await] that is reached is a function [World -> World * list Task]; every
      [await] is a constructor of [Task] holding the captured locals, and
      [resume] runs the code after it, given the platform's answer.  An
      [await] on another [async] function of this file is fused with the
      [await] inside the callee.
    - What the program asks of the browser, the DOM, the network and the
      Capacitor plugins is appended to [trace], in program order; [console]
      output is left out.  The platform's own bookkeeping of live
      subscriptions, timers and wake locks is kept in [Platform]. *)

From Stdlib Require Import Reals Lra Lia List String Ascii Bool PArith NArith ZArith Arith.
Import ListNotations.

Local Open Scope R_scope.

(** ** Utils.calculateDistance (app.js 62-71) *)

Module Utils.

Definition calculateDistance (lat1 lng1 lat2 lng2 : R) : R :=
  let R_ := 6371000 in
  let dLat := (lat2 - lat1) * PI / 180 in
  let dLng := (lng2 - lng1) * PI / 180 in
  let a := sin (dLat / 2) * sin (dLat / 2) +
           cos (lat1 * PI / 180) * cos (lat2 * PI / 180) *
           sin (dLng / 2) * sin (dLng / 2) in
  let c := 2 * asin (sqrt a) in
  R_ * c.

(** The textbook haversine distance on a sphere of radius [r], written with
    the haversine function itself; [calculateDistance] is compared with it. *)
Definition hav (x : R) : R := (sin (x / 2))².

Definition deg2rad (d : R) : R := d * PI / 180.

Definition haversine_spec (r lat1 lng1 lat2 lng2 : R) : R :=
  2 * r * asin (sqrt (hav (deg2rad lat2 - deg2rad lat1) +
                      cos (deg2rad lat1) * cos (deg2rad lat2) *
                      hav (deg2rad lng2 - deg2rad lng1))).

End Utils.

(** ** Data model *)

(** Identifiers handed out by the platform: the id of a watch, of a background
    watcher, of an interval timer, of a wake-lock sentinel.  The platform never
    hands out [0], [null] or the empty string, so a stored identifier is
    truthy exactly when it is [Some _]. *)
Definition handle := positive.

Bind Scope positive_scope with handle.

(** The object [{lat, lng, accuracy}] built from every position. *)
Record Loc := mkLoc { lat : R; lng : R; accuracy : R }.

(** [AppState.destination]: [{name, lat, lng, address}] ([address] is only
    displayed). *)
Record Destination := mkDestination
  { dest_name : string; dest_lat : R; dest_lng : R }.

(** The only function ever passed as [callback] to
    [LocationService.startTracking]: the closure of
    [TrackingService.startTracking] (app.js 988-1010). *)
Inductive Callback := TrackingCallback.

(** The fields of [AppState] (app.js 34-58, and [backgroundWatcherId] added at
    430) that the tracking code reads or writes. *)
Record AppState := mkAppState
  { currentStep : string;
    currentLocation : option Loc;
    destination : option Destination;
    selectedContacts : list string;
    tracking : bool;
    arrived : bool;
    geofenceRadius : R;
    distance : option R;
    updateCount : nat;
    watchId : option handle;
    lastTrackingCallback : option Callback;
    pollIntervalId : option handle;
    backgroundTrackingActive : bool;
    backgroundWatcherId : option handle }.

(** What the page finds in [window] and [navigator]. *)
Record Env := mkEnv
  { isCapacitor : bool;      (* isCapacitor() *)
    CapGeo : bool;           (* getCapacitorPlugin('Geolocation') || window.CapacitorGeolocation *)
    BgGeo : bool;            (* getCapacitorPlugin('BackgroundGeolocation') || window.BackgroundGeolocation *)
    navGeolocation : bool;   (* navigator.geolocation *)
    navWakeLock : bool;      (* 'wakeLock' in navigator *)
    CapacitorApp : bool }.   (* window.CapacitorApp *)

(** The platform's side: the subscriptions, timers and wake locks that are
    live, and the next identifier it hands out. *)
Record Platform := mkPlatform
  { capWatches : list handle;   (* CapGeo.watchPosition *)
    navWatches : list handle;   (* navigator.geolocation.watchPosition *)
    bgWatchers : list handle;   (* BgGeo.addWatcher *)
    timers : list handle;       (* setInterval *)
    locks : list handle;        (* navigator.wakeLock.request *)
    nextHandle : handle }.

Inductive Endpoint := Gps | SetDestination | SendMessage | TripReset.

(** What the program asks of its surroundings. *)
Inductive Effect :=
| ShowError (element : string)
| HideError (element : string)
| ShowStep (stepName : string)
| SetText (element : string)
| SetProgress
| ShowTrackingBanner
| HideTrackingBanner
| Fetch (e : Endpoint)
| NavWatchPosition (id : handle)
| NavClearWatch (id : handle)
| CapWatchPosition
| CapClearWatch (id : handle)
| CapGetCurrentPosition
| BgAddWatcher
| BgRemoveWatcher (id : handle)
| SetInterval (id : handle) (ms : N)
| ClearInterval (id : handle)
| WakeLockRequest
| WakeLockRelease (id : handle).

Record World := mkWorld
  { env : Env;
    appState : AppState;
    wakeLock : option handle;   (* let wakeLock = null, app.js 512 *)
    plat : Platform;
    trace : list Effect }.

(** The [await]s of the program, each with the locals its continuation uses. *)
Inductive Task :=
| AwaitAddWatcher (callback : Callback)          (* 288, 397 *)
| AwaitWatchPosition (callback : Callback)       (* 302 *)
| AwaitGetCurrentPosition (callback : Callback)  (* 340 *)
| AwaitClearWatch (id : handle)                  (* 456 *)
| AwaitRemoveWatcher (id : handle)               (* 468 *)
| AwaitWakeLockRequest                           (* 516, requestWakeLock not awaited *)
| AwaitRequestWakeLock (requested : bool)        (* 555, with 516 when requested *)
| AwaitFetchGps (loc : Loc)                      (* 993, 490 *)
| AwaitFetchSetDestination                       (* 969 *)
| AwaitFetchSendMessage.                         (* 1052 *)

(** The platform's answer to an [await]. *)
Inductive Response :=
| Resolved                              (* resolves; a fetch with response.ok *)
| ResolvedNotOk                         (* a fetch that resolves with !response.ok *)
| ResolvedPosition (position : option Loc)  (* getCurrentPosition *)
| Rejected.

Definition throws (r : Response) : bool :=
  match r with Rejected => true | _ => false end.

Definition http_ok (r : Response) : bool :=
  match r with Resolved => true | _ => false end.

Definition position_of (r : Response) : option Loc :=
  match r with ResolvedPosition p => p | _ => None end.

(** ** Field updates *)

Definition upd_app (f : AppState -> AppState) (w : World) : World :=
  mkWorld w.(env) (f w.(appState)) w.(wakeLock) w.(plat) w.(trace).

Definition upd_plat (f : Platform -> Platform) (w : World) : World :=
  mkWorld w.(env) w.(appState) w.(wakeLock) (f w.(plat)) w.(trace).

Definition set_wakeLock (v : option handle) (w : World) : World :=
  mkWorld w.(env) w.(appState) v w.(plat) w.(trace).

Definition emit (e : Effect) (w : World) : World :=
  mkWorld w.(env) w.(appState) w.(wakeLock) w.(plat) (w.(trace) ++ [e]).

Definition set_currentStep (v : string) : World -> World :=
  upd_app (fun a =>
    mkAppState v (a.(currentLocation)) (a.(destination)) (a.(selectedContacts))
      (a.(tracking)) (a.(arrived)) (a.(geofenceRadius)) (a.(distance)) (a.(updateCount))
      (a.(watchId)) (a.(lastTrackingCallback)) (a.(pollIntervalId))
      (a.(backgroundTrackingActive)) (a.(backgroundWatcherId))).

Definition set_currentLocation (v : option Loc) : World -> World :=
  upd_app (fun a =>
    mkAppState (a.(currentStep)) v (a.(destination)) (a.(selectedContacts))
      (a.(tracking)) (a.(arrived)) (a.(geofenceRadius)) (a.(distance)) (a.(updateCount))
      (a.(watchId)) (a.(lastTrackingCallback)) (a.(pollIntervalId))
      (a.(backgroundTrackingActive)) (a.(backgroundWatcherId))).

Definition set_destination (v : option Destination) : World -> World :=
  upd_app (fun a =>
    mkAppState (a.(currentStep)) (a.(currentLocation)) v (a.(selectedContacts))
      (a.(tracking)) (a.(arrived)) (a.(geofenceRadius)) (a.(distance)) (a.(updateCount))
      (a.(watchId)) (a.(lastTrackingCallback)) (a.(pollIntervalId))
      (a.(backgroundTrackingActive)) (a.(backgroundWatcherId))).

Definition set_tracking (v : bool) : World -> World :=
  upd_app (fun a =>
    mkAppState (a.(currentStep)) (a.(currentLocation)) (a.(destination))
      (a.(selectedContacts)) v (a.(arrived)) (a.(geofenceRadius)) (a.(distance))
      (a.(updateCount)) (a.(watchId)) (a.(lastTrackingCallback)) (a.(pollIntervalId))
      (a.(backgroundTrackingActive)) (a.(backgroundWatcherId))).

Definition set_arrived (v : bool) : World -> World :=
  upd_app (fun a =>
    mkAppState (a.(currentStep)) (a.(currentLocation)) (a.(destination))
      (a.(selectedContacts)) (a.(tracking)) v (a.(geofenceRadius)) (a.(distance))
      (a.(updateCount)) (a.(watchId)) (a.(lastTrackingCallback)) (a.(pollIntervalId))
      (a.(backgroundTrackingActive)) (a.(backgroundWatcherId))).

Definition set_distance (v : option R) : World -> World :=
  upd_app (fun a =>
    mkAppState (a.(currentStep)) (a.(currentLocation)) (a.(destination))
      (a.(selectedContacts)) (a.(tracking)) (a.(arrived)) (a.(geofenceRadius)) v
      (a.(updateCount)) (a.(watchId)) (a.(lastTrackingCallback)) (a.(pollIntervalId))
      (a.(backgroundTrackingActive)) (a.(backgroundWatcherId))).

Definition set_updateCount (v : nat) : World -> World :=
  upd_app (fun a =>
    mkAppState (a.(currentStep)) (a.(currentLocation)) (a.(destination))
      (a.(selectedContacts)) (a.(tracking)) (a.(arrived)) (a.(geofenceRadius))
      (a.(distance)) v (a.(watchId)) (a.(lastTrackingCallback)) (a.(pollIntervalId))
      (a.(backgroundTrackingActive)) (a.(backgroundWatcherId))).

Definition set_watchId (v : option handle) : World -> World :=
  upd_app (fun a =>
    mkAppState (a.(currentStep)) (a.(currentLocation)) (a.(destination))
      (a.(selectedContacts)) (a.(tracking)) (a.(arrived)) (a.(geofenceRadius))
      (a.(distance)) (a.(updateCount)) v (a.(lastTrackingCallback)) (a.(pollIntervalId))
      (a.(backgroundTrackingActive)) (a.(backgroundWatcherId))).

Definition set_lastTrackingCallback (v : option Callback) : World -> World :=
  upd_app (fun a =>
    mkAppState (a.(currentStep)) (a.(currentLocation)) (a.(destination))
      (a.(selectedContacts)) (a.(tracking)) (a.(arrived)) (a.(geofenceRadius))
      (a.(distance)) (a.(updateCount)) (a.(watchId)) v (a.(pollIntervalId))
      (a.(backgroundTrackingActive)) (a.(backgroundWatcherId))).

Definition set_pollIntervalId (v : option handle) : World -> World :=
  upd_app (fun a =>
    mkAppState (a.(currentStep)) (a.(currentLocation)) (a.(destination))
      (a.(selectedContacts)) (a.(tracking)) (a.(arrived)) (a.(geofenceRadius))
      (a.(distance)) (a.(updateCount)) (a.(watchId)) (a.(lastTrackingCallback)) v
      (a.(backgroundTrackingActive)) (a.(backgroundWatcherId))).

Definition set_backgroundTrackingActive (v : bool) : World -> World :=
  upd_app (fun a =>
    mkAppState (a.(currentStep)) (a.(currentLocation)) (a.(destination))
      (a.(selectedContacts)) (a.(tracking)) (a.(arrived)) (a.(geofenceRadius))
      (a.(distance)) (a.(updateCount)) (a.(watchId)) (a.(lastTrackingCallback))
      (a.(pollIntervalId)) v (a.(backgroundWatcherId))).

Definition set_backgroundWatcherId (v : option handle) : World -> World :=
  upd_app (fun a =>
    mkAppState (a.(currentStep)) (a.(currentLocation)) (a.(destination))
      (a.(selectedContacts)) (a.(tracking)) (a.(arrived)) (a.(geofenceRadius))
      (a.(distance)) (a.(updateCount)) (a.(watchId)) (a.(lastTrackingCallback))
      (a.(pollIntervalId)) (a.(backgroundTrackingActive)) v).

(** ** Sequencing

    A piece of code that runs without interruption maps the world to the new
    world and the [await]s it left pending. *)
Definition Seg := World -> World * list Task.

Definition lift (f : World -> World) : Seg := fun w => (f w, []).

Definition andThen (m : World * list Task) (k : Seg) : World * list Task :=
  let (w1, t1) := m in
  let (w2, t2) := k w1 in
  (w2, t1 ++ t2).

Notation "m ;; k" := (andThen m k) (at level 61, left associativity).

(** ** The platform *)

Definition mem (id : handle) (l : list handle) : bool := existsb (Pos.eqb id) l.

Definition del (id : handle) (l : list handle) : list handle :=
  filter (fun x => negb (Pos.eqb x id)) l.

Definition new_handle (w : World) : handle := w.(plat).(nextHandle).

Definition add_capWatch : World -> World :=
  upd_plat (fun p => mkPlatform (p.(nextHandle) :: p.(capWatches)) p.(navWatches)
    p.(bgWatchers) p.(timers) p.(locks) (Pos.succ p.(nextHandle))).

Definition add_navWatch : World -> World :=
  upd_plat (fun p => mkPlatform p.(capWatches) (p.(nextHandle) :: p.(navWatches))
    p.(bgWatchers) p.(timers) p.(locks) (Pos.succ p.(nextHandle))).

Definition add_bgWatcher : World -> World :=
  upd_plat (fun p => mkPlatform p.(capWatches) p.(navWatches)
    (p.(nextHandle) :: p.(bgWatchers)) p.(timers) p.(locks) (Pos.succ p.(nextHandle))).

Definition add_timer : World -> World :=
  upd_plat (fun p => mkPlatform p.(capWatches) p.(navWatches)
    p.(bgWatchers) (p.(nextHandle) :: p.(timers)) p.(locks) (Pos.succ p.(nextHandle))).

Definition add_lock : World -> World :=
  upd_plat (fun p => mkPlatform p.(capWatches) p.(navWatches)
    p.(bgWatchers) p.(timers) (p.(nextHandle) :: p.(locks)) (Pos.succ p.(nextHandle))).

Definition del_capWatch (id : handle) : World -> World :=
  upd_plat (fun p => mkPlatform (del id p.(capWatches)) p.(navWatches)
    p.(bgWatchers) p.(timers) p.(locks) p.(nextHandle)).

Definition del_navWatch (id : handle) : World -> World :=
  upd_plat (fun p => mkPlatform p.(capWatches) (del id p.(navWatches))
    p.(bgWatchers) p.(timers) p.(locks) p.(nextHandle)).

Definition del_bgWatcher (id : handle) : World -> World :=
  upd_plat (fun p => mkPlatform p.(capWatches) p.(navWatches)
    (del id p.(bgWatchers)) p.(timers) p.(locks) p.(nextHandle)).

Definition del_timer (id : handle) : World -> World :=
  upd_plat (fun p => mkPlatform p.(capWatches) p.(navWatches)
    p.(bgWatchers) (del id p.(timers)) p.(locks) p.(nextHandle)).

Definition del_lock (id : handle) : World -> World :=
  upd_plat (fun p => mkPlatform p.(capWatches) p.(navWatches)
    p.(bgWatchers) p.(timers) (del id p.(locks)) p.(nextHandle)).

(** [setInterval(f, 15000)]: a new live timer; its id is the result. *)
Definition setInterval (ms : N) (w : World) : World :=
  add_timer (emit (SetInterval (new_handle w) ms) w).

Definition clearInterval (id : handle) (w : World) : World :=
  del_timer id (emit (ClearInterval id) w).

(** [navigator.geolocation.watchPosition] answers at once with the new id. *)
Definition nav_watchPosition (w : World) : World :=
  add_navWatch (emit (NavWatchPosition (new_handle w)) w).

Definition nav_clearWatch (id : handle) (w : World) : World :=
  del_navWatch id (emit (NavClearWatch id) w).

(** ** Utils, StepManager and the banner *)

Definition showError (element : string) : World -> World := emit (ShowError element).

Definition hideError (element : string) : World -> World := emit (HideError element).

(** [StepManager.showStep] (app.js 111-123); the element [step-<name>] of the
    page is there. *)
Definition showStep (stepName : string) (w : World) : World :=
  set_currentStep stepName (emit (ShowStep stepName) w).

(** Modelled from the spec: [showTrackingBanner] and [hideTrackingBanner] are
    called by app.js and defined outside it; section 4.2 of the spec describes
    them as the user-visible indication that tracking is active.  They show
    and hide that indication and return. *)
Definition showTrackingBanner : World -> World := emit ShowTrackingBanner.

Definition hideTrackingBanner : World -> World := emit HideTrackingBanner.

(** ** Wake lock (app.js 512-533) *)

Definition requestWakeLock : Seg := fun w =>
  if w.(env).(navWakeLock)
  then (emit WakeLockRequest w, [AwaitWakeLockRequest])
  else (w, []).

(** After [await navigator.wakeLock.request('screen')] (516-521). *)
Definition requestWakeLock_resume (r : Response) (w : World) : World :=
  if throws r then w
  else set_wakeLock (Some (new_handle w)) (add_lock w).

(** [wakeLock.release()] answers with a promise, whose rejection
    [.catch(()=>{})] swallows; the platform drops the lock. *)
Definition releaseWakeLock (w : World) : World :=
  match w.(wakeLock) with
  | Some l => set_wakeLock None (del_lock l (emit (WakeLockRelease l) w))
  | None => w
  end.

Local Open Scope string_scope.
Local Open Scope list_scope.

(** ** LocationService (app.js 135-509) *)

Module LocationService.

(** 331-349: the poll timer; a timer already stored is cleared first. *)
Definition startPoll (w : World) : World :=
  let w1 := match w.(appState).(pollIntervalId) with
            | Some t => clearInterval t w
            | None => w
            end in
  set_pollIntervalId (Some (new_handle w1)) (setInterval 15000%N w1).

(** 329-351: what [startCapacitorTracking] does once a watcher is there. *)
Definition finishStart (callback : Callback) (w : World) : World :=
  startPoll (set_lastTrackingCallback (Some callback) w).

(** 299-327, up to the [await] of [CapGeo.watchPosition]; [watcherId] is
    [null] here. *)
Definition foregroundWatch (callback : Callback) : Seg := fun w =>
  (emit CapWatchPosition w, [AwaitWatchPosition callback]).

(** 320-326: after that [await]. *)
Definition foregroundWatch_resume (callback : Callback) (r : Response) : Seg :=
  fun w =>
  if throws r
  then (showError "trackingError" w, [])
  else (finishStart callback (set_watchId (Some (new_handle w)) (add_capWatch w)), []).

(** 354-441 [setupBackgroundTracking], up to the [await] of [BgGeo.addWatcher];
    [None] when it throws before. *)
Definition setupBackgroundTracking (callback : Callback) (w : World)
  : option (World * list Task) :=
  if negb w.(env).(BgGeo) then None
  else Some (emit BgAddWatcher w, [AwaitAddWatcher callback]).

(** 430-436 and 289-300, 329-351: after that [await].  A rejection is thrown
    again by [setupBackgroundTracking] (437-440) and caught at 292. *)
Definition setupBackgroundTracking_resume (callback : Callback) (r : Response)
  : Seg := fun w =>
  if throws r
  then foregroundWatch callback w
  else
    let watcherId := new_handle w in
    let w1 := add_bgWatcher w in
    let w2 := set_backgroundWatcherId (Some watcherId) w1 in
    let w3 := set_backgroundTrackingActive true w2 in
    let w4 := showTrackingBanner w3 in
    (finishStart callback w4, []).

(** 261-298. *)
Definition startCapacitorTracking (callback : Callback) : Seg := fun w =>
  if negb w.(env).(CapGeo)
  then (showError "trackingError" w, [])
  else if w.(env).(BgGeo)
  then match setupBackgroundTracking callback w with
       | Some res => res
       | None => foregroundWatch callback w
       end
  else foregroundWatch callback w.

(** 221-259. *)
Definition startTracking (callback : Callback) : Seg := fun w =>
  if w.(env).(isCapacitor) && w.(env).(CapGeo)
  then startCapacitorTracking callback w
  else if negb w.(env).(navGeolocation)
  then (showError "trackingError" w, [])
  else
    let w1 := set_watchId (Some (new_handle w)) (nav_watchPosition w) in
    (set_lastTrackingCallback (Some callback) w1, []).

(** 480-485: the end of [stopTracking]. *)
Definition stopTracking_tail (w : World) : World :=
  let w1 := match w.(appState).(watchId) with
            | Some id => if w.(env).(navGeolocation) then nav_clearWatch id w else w
            | None => w
            end in
  set_watchId None w1.

(** 472-474. *)
Definition backgroundStopped (w : World) : World :=
  set_backgroundWatcherId None (set_backgroundTrackingActive false w).

(** 463-485, up to the [await] of [BgGeo.removeWatcher]. *)
Definition stopTracking_background : Seg := fun w =>
  if w.(env).(BgGeo) && w.(appState).(backgroundTrackingActive)
  then match w.(appState).(backgroundWatcherId) with
       | Some id => (emit (BgRemoveWatcher id) w, [AwaitRemoveWatcher id])
       | None => (stopTracking_tail (backgroundStopped w), [])
       end
  else (stopTracking_tail w, []).

(** After [await BgGeo.removeWatcher] (471-485); a rejection is caught at 475
    and skips 473-474. *)
Definition removeWatcher_resume (id : handle) (r : Response) : Seg := fun w =>
  if throws r
  then (stopTracking_tail w, [])
  else (stopTracking_tail (backgroundStopped (del_bgWatcher id w)), []).

(** After [await CapGeo.clearWatch] (457-485); a rejection is caught at 458. *)
Definition clearWatch_resume (id : handle) (r : Response) : Seg := fun w =>
  stopTracking_background (if throws r then w else del_capWatch id w).

(** 443-462, up to the first [await] that is reached. *)
Definition stopTracking : Seg := fun w =>
  let w1 := match w.(appState).(pollIntervalId) with
            | Some t => set_pollIntervalId None (clearInterval t w)
            | None => w
            end in
  match w1.(appState).(watchId) with
  | Some id =>
      if w1.(env).(isCapacitor) && w1.(env).(CapGeo)
      then (emit (CapClearWatch id) w1, [AwaitClearWatch id])
      else stopTracking_background w1
  | None => stopTracking_background w1
  end.

(** 488-508, up to the [await] of [fetch]; what follows only logs. *)
Definition sendLocationToServer (loc : Loc) : Seg := fun w =>
  (emit (Fetch Gps) w, [AwaitFetchGps loc]).

End LocationService.

(** ** TrackingService (app.js 953-1113) *)

(** The arrival test [dist <= AppState.geofenceRadius] (1007). *)
Definition within (dist radius : R) : bool :=
  if Rle_dec dist radius then true else false.

Module TrackingService.

(** 1021-1029.  [AppState.destination.name] throws when there is no
    destination; the result says whether the function returned. *)
Definition updateTrackingUI (loc : Loc) (w : World) : World * bool :=
  let w1 := emit (SetText "trackingCurrentLoc") w in
  let w2 := emit (SetText "trackingAccuracy") w1 in
  let w3 := emit (SetText "updateCount") w2 in
  match w3.(appState).(destination) with
  | None => (w3, false)
  | Some _ =>
      let w4 := emit (SetText "trackingDestination") w3 in
      (emit (SetText "trackingRadius") w4, true)
  end.

(** 1031-1037; the element [progressFill] is there. *)
Definition updateProgressBar (dist : R) : World -> World := emit SetProgress.

(** 1092-1112; the markers of the map are the map's business. *)
Definition resetApp (w : World) : World :=
  let w1 := set_currentLocation None w in
  let w2 := set_destination None w1 in
  let w3 := set_tracking false w2 in
  let w4 := set_arrived false w3 in
  let w5 := set_distance None w4 in
  let w6 := set_updateCount 0 w5 in
  let w7 := releaseWakeLock w6 in
  let w8 := hideTrackingBanner w7 in
  showStep "permission" w8.

(** 1077-1090; [stopTracking] is not awaited, and neither is the [fetch]. *)
Definition cancelTrip : Seg := fun w =>
  LocationService.stopTracking w ;;
  lift releaseWakeLock ;;
  lift hideTrackingBanner ;;
  lift (emit (Fetch TripReset)) ;;
  lift resetApp.

(** 1062-1074: after [await fetch(.../send-message)]. *)
Definition handleArrival_resume (r : Response) (w : World) : World :=
  if http_ok r
  then
    let w1 := emit (SetText "sentContactsCount") w in
    match w1.(appState).(destination) with
    | Some _ =>
        let w2 := emit (SetText "arrivedDestinationName") w1 in
        let w3 := emit (SetText "arrivalTime") w2 in
        showStep "complete" w3
    | None => showStep "complete" (showError "trackingError" w1)
    end
  else showStep "complete" (showError "trackingError" w).

(** 1039-1061, up to the [await] of [fetch]; [stopTracking] is not awaited. *)
Definition handleArrival : Seg := fun w =>
  if w.(appState).(arrived) then (w, [])
  else
    let w1 := set_arrived true w in
    let w2 := set_tracking false w1 in
    LocationService.stopTracking w2 ;;
    lift releaseWakeLock ;;
    lift hideTrackingBanner ;;
    (fun w5 =>
       match w5.(appState).(destination) with
       | Some _ => (emit (Fetch SendMessage) w5, [AwaitFetchSendMessage])
       | None => (showStep "complete" (showError "trackingError" w5), [])
       end).

(** 988-993: the callback handed to [LocationService.startTracking], up to
    [await LocationService.sendLocationToServer(loc)]. *)
Definition trackingCallback (loc : Loc) : Seg := fun w =>
  match updateTrackingUI loc w with
  | (w1, true) => LocationService.sendLocationToServer loc w1
  | (w1, false) => (w1, [])
  end.

(** 995-1009: the callback after that [await]. *)
Definition trackingCallback_resume (loc : Loc) (r : Response) : Seg := fun w =>
  match w.(appState).(destination) with
  | None => (w, [])
  | Some d =>
      let dist := Utils.calculateDistance loc.(lat) loc.(lng) d.(dest_lat) d.(dest_lng) in
      let w1 := set_distance (Some dist) w in
      let w2 := emit (SetText "trackingDistance") w1 in
      let w3 := updateProgressBar dist w2 in
      if within dist w3.(appState).(geofenceRadius) && negb w3.(appState).(arrived)
      then handleArrival w3
      else (w3, [])
  end.

(** 954-979, up to the [await] of [fetch]. *)
Definition startTracking : Seg := fun w =>
  match w.(appState).(destination) with
  | None => (showError "messageError" w, [])
  | Some _ =>
      if Nat.eqb (List.length w.(appState).(selectedContacts)) 0
      then (showError "messageError" w, [])
      else (emit (Fetch SetDestination) (hideError "messageError" w),
            [AwaitFetchSetDestination])
  end.

(** 981-1018: after that [await]. *)
Definition startTracking_resume (r : Response) : Seg := fun w =>
  if http_ok r
  then
    let w1 := set_tracking true w in
    let w2 := showStep "tracking" w1 in
    let w3 := set_updateCount 0 w2 in
    LocationService.startTracking TrackingCallback w3 ;;
    requestWakeLock ;;
    lift showTrackingBanner
  else (set_tracking false (showError "messageError" w), []).

End TrackingService.

(** ** The callbacks handed to the platform *)

(** [if (callback) callback(loc)]: the callback is the tracking closure. *)
Definition call (callback : Callback) (loc : Loc) : Seg :=
  match callback with
  | TrackingCallback => TrackingService.trackingCallback loc
  end.

(** 236-244, 271-279 and 417-425: store the fix, count it, call back. *)
Definition applyLoc (callback : Callback) (loc : Loc) : Seg := fun w =>
  let w1 := set_currentLocation (Some loc) w in
  let w2 := set_updateCount (S w1.(appState).(updateCount)) w1 in
  call callback loc w2.

(** 269-280. *)
Definition applyPosition (callback : Callback) (position : option Loc) : Seg :=
  fun w =>
  match position with
  | None => (w, [])
  | Some loc => applyLoc callback loc w
  end.

(** 235-245: the success callback of [navigator.geolocation.watchPosition]. *)
Definition navWatchSuccess (callback : Callback) (loc : Loc) : Seg :=
  applyLoc callback loc.

(** 246-249: its error callback. *)
Definition navWatchError : Seg := lift (showError "trackingError").

(** 308-318: the callback of [CapGeo.watchPosition]. *)
Definition capWatchCallback (callback : Callback) (position : option Loc)
  (err : bool) : Seg := fun w =>
  if err
  then if negb w.(appState).(backgroundTrackingActive)
       then (showError "trackingError" w, [])
       else (w, [])
  else applyPosition callback position w.

(** 405-427: the callback of [BgGeo.addWatcher]; [error] is [Some true] for
    the code NOT_AUTHORIZED and [Some false] for any other error. *)
Definition bgWatcherCallback (callback : Callback) (location : option Loc)
  (error : option bool) : Seg := fun w =>
  match error with
  | Some notAuthorized =>
      if notAuthorized then (showError "trackingError" w, []) else (w, [])
  | None =>
      match location with
      | Some loc => applyLoc callback loc w
      | None => (w, [])
      end
  end.

(** 336-345: the timer callback, up to [await getCurrentPosition]. *)
Definition pollTick (callback : Callback) : Seg := fun w =>
  if negb w.(env).(CapGeo) then (w, [])
  else (emit CapGetCurrentPosition w, [AwaitGetCurrentPosition callback]).

(** 345-348: after that [await]. *)
Definition pollTick_resume (callback : Callback) (r : Response) : Seg := fun w =>
  if throws r then (w, [])
  else applyPosition callback (position_of r) w.

(** ** Listeners *)

(** 556-558. *)
Definition reacquireWatch : Seg := fun w =>
  match w.(appState).(watchId), w.(appState).(lastTrackingCallback) with
  | None, Some callback => LocationService.startTracking callback w
  | _, _ => (w, [])
  end.

(** 552-555: the [visibilitychange] listener, up to [await requestWakeLock()]. *)
Definition onVisibilityChange (visible : bool) : Seg := fun w =>
  if visible && w.(appState).(tracking)
  then if w.(env).(navWakeLock)
       then (emit WakeLockRequest w, [AwaitRequestWakeLock true])
       else (w, [AwaitRequestWakeLock false])
  else (w, []).

(** 516-521 and 556-558: after that [await]. *)
Definition onVisibilityChange_resume (requested : bool) (r : Response) : Seg :=
  fun w =>
  reacquireWatch (if requested then requestWakeLock_resume r w else w).

(** 1139-1145: the [appStateChange] listener, registered by [initCapacitor]
    (1124, 1138) on a native platform that has [window.CapacitorApp]. *)
Definition onAppStateChange (isActive : bool) : Seg := fun w =>
  if w.(env).(isCapacitor) && w.(env).(CapacitorApp)
  then match w.(appState).(lastTrackingCallback) with
       | Some callback =>
           if isActive && w.(appState).(tracking)
           then LocationService.startTracking callback w
           else (w, [])
       | None => (w, [])
       end
  else (w, []).

(** ** The event loop *)

(** The code after an [await], given the platform's answer. *)
Definition resume (t : Task) (r : Response) : Seg :=
  match t with
  | AwaitAddWatcher callback => LocationService.setupBackgroundTracking_resume callback r
  | AwaitWatchPosition callback => LocationService.foregroundWatch_resume callback r
  | AwaitGetCurrentPosition callback => pollTick_resume callback r
  | AwaitClearWatch id => LocationService.clearWatch_resume id r
  | AwaitRemoveWatcher id => LocationService.removeWatcher_resume id r
  | AwaitWakeLockRequest => lift (requestWakeLock_resume r)
  | AwaitRequestWakeLock requested => onVisibilityChange_resume requested r
  | AwaitFetchGps loc => TrackingService.trackingCallback_resume loc r
  | AwaitFetchSetDestination => TrackingService.startTracking_resume r
  | AwaitFetchSendMessage => lift (TrackingService.handleArrival_resume r)
  end.

(** What can happen next: the platform calls one of the callbacks it holds,
    it answers a pending [await], or the user presses a button.  A watch or a
    timer that is no longer live does not call back. *)
Inductive Event :=
| NavPosition (id : handle) (loc : Loc)
| NavError (id : handle)
| CapWatch (id : handle) (position : option Loc) (err : bool)
| BgWatch (id : handle) (location : option Loc) (error : option bool)
| TimerTick (id : handle)
| Settle (i : nat) (r : Response)
| VisibilityChange (visible : bool)
| AppStateChange (isActive : bool)
| ClickStartTracking       (* startTrackingBtn, 1272 *)
| ClickCancelTrip          (* cancelTripBtn and stopTrackingBtn, confirmed, 1277, 1303 *)
| ClickStartNewJourney.    (* startNewJourneyBtn, 1284 *)

(** The world and the [await]s that are pending. *)
Definition Sys := (World * list Task)%type.

Fixpoint remove_nth {A : Type} (i : nat) (l : list A) : list A :=
  match l, i with
  | [], _ => []
  | _ :: t, O => t
  | x :: t, S j => x :: remove_nth j t
  end.

Definition deliver (k : Seg) (s : Sys) : Sys :=
  let (w, new) := k (fst s) in (w, snd s ++ new).

Definition guarded (live : bool) (k : Seg) (s : Sys) : Sys :=
  if live then deliver k s else s.

Definition step (s : Sys) (ev : Event) : Sys :=
  let w := fst s in
  match ev with
  | NavPosition id loc =>
      guarded (mem id w.(plat).(navWatches)) (navWatchSuccess TrackingCallback loc) s
  | NavError id =>
      guarded (mem id w.(plat).(navWatches)) navWatchError s
  | CapWatch id position err =>
      guarded (mem id w.(plat).(capWatches))
        (capWatchCallback TrackingCallback position err) s
  | BgWatch id location error =>
      guarded (mem id w.(plat).(bgWatchers))
        (bgWatcherCallback TrackingCallback location error) s
  | TimerTick id =>
      guarded (mem id w.(plat).(timers)) (pollTick TrackingCallback) s
  | Settle i r =>
      match nth_error (snd s) i with
      | Some t => deliver (resume t r) (w, remove_nth i (snd s))
      | None => s
      end
  | VisibilityChange visible => deliver (onVisibilityChange visible) s
  | AppStateChange isActive => deliver (onAppStateChange isActive) s
  | ClickStartTracking => deliver TrackingService.startTracking s
  | ClickCancelTrip => deliver TrackingService.cancelTrip s
  | ClickStartNewJourney => deliver (lift TrackingService.resetApp) s
  end.

Definition run (s : Sys) (evs : list Event) : Sys := fold_left step evs s.

(** Answering the oldest pending [await] first, with the answer [answer]
    gives for it, at most [n] times. *)
Fixpoint settleAll (n : nat) (answer : Task -> Response) (s : Sys) : Sys :=
  match n, snd s with
  | S m, t :: _ => settleAll m answer (step s (Settle 0 (answer t)))
  | _, _ => s
  end.

(** ** Initial states *)

(** The literal [AppState] of app.js 34-58. *)
Definition AppState0 : AppState :=
  mkAppState "permission" None None [] false false 500 None 0 None None None false None.

Definition Platform0 : Platform := mkPlatform [] [] [] [] [] 1.

Definition World0 (e : Env) (a : AppState) : World := mkWorld e a None Platform0 [].

(** The state at the message step: a location is known (step 1), contacts are
    selected (step 2) and a destination is chosen (step 3). *)
Definition ready (here : Loc) (dest : Destination) (contacts : list string) : AppState :=
  mkAppState "message" (Some here) (Some dest) contacts false false 500 None 0
    None None None false None.

(** ** What is counted in a trace *)

Definition is_sendMessage (e : Effect) : bool :=
  match e with Fetch SendMessage => true | _ => false end.

Definition is_complete (e : Effect) : bool :=
  match e with ShowStep s => String.eqb s "complete" | _ => false end.

Definition is_awaitSendMessage (t : Task) : bool :=
  match t with AwaitFetchSendMessage => true | _ => false end.

Definition count {A : Type} (p : A -> bool) (l : list A) : nat :=
  List.length (filter p l).

(** The events of one trip: everything but the two buttons that end it by
    [resetApp]. *)
Definition trip_event (ev : Event) : bool :=
  match ev with
  | ClickCancelTrip | ClickStartNewJourney => false
  | _ => true
  end.

Definition sent (w : World) : nat := count is_sendMessage w.(trace).

Definition completed (w : World) : nat := count is_complete w.(trace).

Definition awaited (ts : list Task) : nat := count is_awaitSendMessage ts.

(** ** The acquisition sources *)



(** [l] without the handle stored in [h], if any. *)
Definition without (h : option handle) (l : list handle) : list handle :=
  match h with Some id => del id l | None => l end.

(** ** Sample platforms and positions *)

(** A desktop browser: no Capacitor, [navigator.geolocation] and the Wake
    Lock API. *)
Definition browser : Env := mkEnv false false false true true false.

(** A native build with the Geolocation plugin and the App plugin, and no
    BackgroundGeolocation plugin. *)
Definition native : Env := mkEnv true true false true false true.

(** A native build that has the BackgroundGeolocation plugin too. *)
Definition nativeBg : Env := mkEnv true true true true false true.

Definition home : Destination := mkDestination "Home" 0 0.

Definition atHome : Loc := mkLoc 0 0 5.

(** The point on the meridian of [home] whose distance to it is 500 m. *)
Definition lat500 : R := 500 * 180 / (6371000 * PI).

Definition at500 : Loc := mkLoc lat500 0 5.

Definition contacts1 : list string := ["+15550100"].

Arguments count {A} p l : simpl never.
Arguments within dist radius : simpl never.
Arguments Utils.calculateDistance lat1 lng1 lat2 lng2 : simpl never.

(** ** Bookkeeping of the arrival

    Between two states the arrival is in [Balance] when [arrived] was not
    cleared, and one arrival message was requested, and one completion was
    shown or left to come, exactly if [arrived] was set in between.  A piece
    of code is [balanced] when it keeps that balance from every world. *)
Definition arrivedIn (s : Sys) : bool := (fst s).(appState).(arrived).

Definition Balance (s s' : Sys) : Prop :=
  (arrivedIn s = true -> arrivedIn s' = true) /\
  (sent (fst s') + Nat.b2n (arrivedIn s) =
   sent (fst s) + Nat.b2n (arrivedIn s'))%nat /\
  (completed (fst s') + awaited (snd s') + Nat.b2n (arrivedIn s) =
   completed (fst s) + awaited (snd s) + Nat.b2n (arrivedIn s'))%nat.

Definition balanced (k : Seg) : Prop := forall w, Balance (w, []) (k w).

(** The [clearInterval] of a start when a poll timer is already stored. *)
Definition clearedPoll (w : World) : list Effect :=
  match w.(appState).(pollIntervalId) with
  | Some t => [ClearInterval t]
  | None => []
  end.

(** Every [await] is answered without a rejection. *)
Definition resolves (answer : Task -> Response) : Prop :=
  forall t, throws (answer t) = false.

(** ** What a start and a stop leave behind *)

(** From [w], the background watcher [new_handle w] was added and nothing
    else was subscribed; the poll timer was started afresh. *)
Definition backgroundStarted (w : World) (s : Sys) : Prop :=
  let n := new_handle w in
  (fst s).(trace) =
    w.(trace) ++ [BgAddWatcher; ShowTrackingBanner] ++ clearedPoll w ++
    [SetInterval (Pos.succ n) 15000] /\
  (fst s).(appState).(backgroundTrackingActive) = true /\
  (fst s).(appState).(backgroundWatcherId) = Some n /\
  (fst s).(plat).(bgWatchers) = n :: w.(plat).(bgWatchers) /\
  (fst s).(appState).(watchId) = w.(appState).(watchId) /\
  (fst s).(plat).(capWatches) = w.(plat).(capWatches) /\
  (fst s).(appState).(pollIntervalId) = Some (Pos.succ n) /\
  (fst s).(plat).(timers) =
    Pos.succ n :: without w.(appState).(pollIntervalId) w.(plat).(timers) /\
  snd s = [].

(** From [w], the foreground watch [new_handle w] was started, after the
    background watcher was asked for if the plugin is there; the poll timer
    was started afresh. *)
Definition foregroundStarted (w : World) (s : Sys) : Prop :=
  let n := new_handle w in
  (fst s).(trace) =
    w.(trace) ++ (if w.(env).(BgGeo) then [BgAddWatcher] else []) ++
    [CapWatchPosition] ++ clearedPoll w ++ [SetInterval (Pos.succ n) 15000] /\
  (fst s).(appState).(watchId) = Some n /\
  (fst s).(plat).(capWatches) = n :: w.(plat).(capWatches) /\
  (fst s).(appState).(backgroundTrackingActive) = w.(appState).(backgroundTrackingActive) /\
  (fst s).(plat).(bgWatchers) = w.(plat).(bgWatchers) /\
  (fst s).(appState).(pollIntervalId) = Some (Pos.succ n) /\
  (fst s).(plat).(timers) =
    Pos.succ n :: without w.(appState).(pollIntervalId) w.(plat).(timers) /\
  snd s = [].

(** From [w], the browser's watch [new_handle w] was started and nothing
    else: no timer. *)
Definition browserStarted (w : World) (s : Sys) : Prop :=
  let n := new_handle w in
  (fst s).(trace) = w.(trace) ++ [NavWatchPosition n] /\
  (fst s).(appState).(watchId) = Some n /\
  (fst s).(plat).(navWatches) = n :: w.(plat).(navWatches) /\
  (fst s).(appState).(pollIntervalId) = w.(appState).(pollIntervalId) /\
  (fst s).(plat).(timers) = w.(plat).(timers) /\
  snd s = [].

(** From [w], nothing is pending, every handle of [AppState] and the wake
    lock are cleared, and what they named is no longer live. *)
Definition tornDown (w : World) (s : Sys) : Prop :=
  let e := w.(env) in
  let a := w.(appState) in
  snd s = [] /\
  (fst s).(appState).(pollIntervalId) = None /\
  (fst s).(appState).(watchId) = None /\
  (fst s).(appState).(backgroundTrackingActive) = false /\
  (fst s).(appState).(backgroundWatcherId) =
    (if a.(backgroundTrackingActive) then None else a.(backgroundWatcherId)) /\
  (fst s).(wakeLock) = None /\
  (fst s).(plat).(timers) = without a.(pollIntervalId) w.(plat).(timers) /\
  (fst s).(plat).(capWatches) =
    (if e.(isCapacitor) && e.(CapGeo)
     then without a.(watchId) w.(plat).(capWatches) else w.(plat).(capWatches)) /\
  (fst s).(plat).(navWatches) =
    (if e.(navGeolocation)
     then without a.(watchId) w.(plat).(navWatches) else w.(plat).(navWatches)) /\
  (fst s).(plat).(bgWatchers) =
    (if a.(backgroundTrackingActive)
     then without a.(backgroundWatcherId) w.(plat).(bgWatchers)
     else w.(plat).(bgWatchers)) /\
  (fst s).(plat).(locks) = without w.(wakeLock) w.(plat).(locks).

(** The live timers are exactly the stored poll timer. *)
Definition onePollTimer (w : World) : Prop :=
  w.(plat).(timers) =
  match w.(appState).(pollIntervalId) with
  | Some t => [t]
  | None => []
  end.

(** ** Sample runs *)

(** A trip started in a desktop browser. *)
Definition browserStart : list Event :=
  [ ClickStartTracking;
    Settle 0 Resolved ].                     (* the server accepts the destination *)

(** A trip started on a native platform without the background plugin. *)
Definition nativeStart : list Event :=
  [ ClickStartTracking;
    Settle 0 Resolved;                       (* the server accepts the destination *)
    Settle 0 Resolved ].                     (* CapGeo.watchPosition answers: watch 1, timer 2 *)

(** A trip started on a native platform with the background plugin. *)
Definition backgroundStart : list Event :=
  [ ClickStartTracking;
    Settle 0 Resolved;                       (* the server accepts the destination *)
    Settle 0 Resolved ].                     (* BgGeo.addWatcher answers: watcher 1, timer 2 *)


(** A trip on a native platform in which two fixes inside the geofence are
    delivered before the first one has been reported to the server. *)
Definition twoFixes : list Event :=
  nativeStart ++
  [ CapWatch 1 (Some atHome) false;          (* first fix inside the geofence *)
    CapWatch 1 (Some atHome) false;          (* second fix, the first is still being sent *)
    Settle 0 Resolved;                       (* the first callback goes on: arrival *)
    Settle 0 Resolved ].                     (* the second callback goes on *)

(** A trip on a native platform whose first fix is on the boundary of the
    geofence. *)
Definition arriveOnBoundary : list Event :=
  nativeStart ++
  [ CapWatch 1 (Some at500) false;           (* a fix at 500 m, radius 500 m *)
    Settle 0 Resolved ].                     (* the callback goes on: arrival *)

(** The app comes back to the foreground during a trip on a native platform,
    and the trip is cancelled afterwards. *)
Definition foregrounded : list Event :=
  nativeStart ++
  [ AppStateChange true;                     (* startTracking again *)
    Settle 0 Resolved ].                     (* CapGeo.watchPosition answers: watch 3, timer 4 *)

Definition foregroundedThenCancelled : list Event :=
  foregrounded ++
  [ ClickCancelTrip;
    Settle 0 Resolved ].                     (* CapGeo.clearWatch answers *)

(** The page becomes visible again during a trip that tracks with the
    background watcher. *)
Definition backgroundForegrounded : list Event :=
  backgroundStart ++
  [ VisibilityChange true;                   (* tracking, and watchId is null *)
    Settle 0 Resolved;                       (* after requestWakeLock: startTracking again *)
    Settle 0 Resolved ].                     (* BgGeo.addWatcher answers: watcher 3, timer 4 *)

(** A trip with the background watcher is cancelled and
    [BgGeo.removeWatcher] fails. *)
Definition cancelRejected : list Event :=
  backgroundStart ++
  [ ClickCancelTrip;
    Settle 0 Rejected ].                     (* BgGeo.removeWatcher fails *)

Definition start0 (e : Env) : Sys := (World0 e (ready atHome home contacts1), []).

(** * The rest of the page

    The parts of app.js around the tracking engine: the steps, the contact
    list, the choice of a destination, what is displayed of a distance, and
    the base address of the server. *)

(** ** StepManager.nextStep (app.js 125-131) *)

(** [Array.prototype.indexOf] on strings: the first index, or -1. *)
Fixpoint indexOf (x : string) (l : list string) : Z :=
  match l with
  | [] => (-1)%Z
  | y :: t =>
      if String.eqb y x then 0%Z
      else let i := indexOf x t in
           if (i <? 0)%Z then (-1)%Z else (i + 1)%Z
  end.

Module StepManager.

Definition steps : list string :=
  ["permission"; "contacts"; "destination"; "message"; "tracking"; "complete"].

(** [steps[currentIndex + 1]] is [undefined] out of range, and [showStep]
    finds no element for it. *)
Definition nextStep (w : World) : World :=
  let currentIndex := indexOf w.(appState).(currentStep) steps in
  if (currentIndex <? Z.of_nat (List.length steps) - 1)%Z
  then match nth_error steps (Z.to_nat (currentIndex + 1)) with
       | Some stepName => showStep stepName w
       | None => w
       end
  else w.

End StepManager.

(** ** ContactManager (app.js 826-932)

    The text of an input is a [string] whose characters are code units below
    256. *)

(** [\s], and what [trim] removes, among these code units: tab, line feed,
    vertical tab, form feed, carriage return, space, no-break space. *)
Definition isSpace (c : Ascii.ascii) : bool :=
  let n := Ascii.nat_of_ascii c in
  ((9 <=? n) && (n <=? 13) || (n =? 32) || (n =? 160))%nat.

(** [\d]. *)
Definition isDigit (c : Ascii.ascii) : bool :=
  let n := Ascii.nat_of_ascii c in
  ((48 <=? n) && (n <=? 57))%nat.

Fixpoint filterString (keep : Ascii.ascii -> bool) (s : string) : string :=
  match s with
  | EmptyString => EmptyString
  | String c t => if keep c then String c (filterString keep t) else filterString keep t
  end.

Fixpoint allString (p : Ascii.ascii -> bool) (s : string) : bool :=
  match s with
  | EmptyString => true
  | String c t => p c && allString p t
  end.

Fixpoint trimStart (s : string) : string :=
  match s with
  | EmptyString => EmptyString
  | String c t => if isSpace c then trimStart t else s
  end.

(** The string without its trailing characters that satisfy [p]. *)
Fixpoint dropEnd (p : Ascii.ascii -> bool) (s : string) : string :=
  match s with
  | EmptyString => EmptyString
  | String c t =>
      match dropEnd p t with
      | EmptyString => if p c then EmptyString else String c EmptyString
      | t' => String c t'
      end
  end.

(** [String.prototype.trim]. *)
Definition trim (s : string) : string := dropEnd isSpace (trimStart s).

(** [phone.replace(/[\s-]/g, '')] (836). *)
Definition stripSeparators (phone : string) : string :=
  filterString (fun c => negb (isSpace c || Ascii.eqb c "-")) phone.

(** [\d{10,15}] on a whole string. *)
Definition tenToFifteenDigits (s : string) : bool :=
  (allString isDigit s && (10 <=? String.length s) && (String.length s <=? 15))%nat.

(** [/^\+?\d{10,15}$/.test(s)] (836): an optional plus, then 10 to 15
    digits, and nothing else. *)
Definition phonePattern (s : string) : bool :=
  match s with
  | String "+" digits => tenToFifteenDigits digits
  | _ => tenToFifteenDigits s
  end.

Definition validPhone (phone : string) : bool := phonePattern (stripSeparators phone).

Record Contact := mkContact { contact_name : string; contact_phone : string }.

(** The contact step: [AppState.contacts]; the world, which holds
    [AppState.selectedContacts]; the two inputs; what [renderContacts] and
    [renderContactCheckboxes] last put on the page (the items the HTML is
    generated from); and the two values last handed to [JSON.stringify] for
    [localStorage]. *)
Record Book := mkBook
  { contacts : list Contact;
    world : World;
    contactName : string;                       (* the input #contactName *)
    contactPhone : string;                      (* the input #contactPhone *)
    contactsList : list Contact;                (* #contactsList *)
    nextToMapBtnHidden : bool;                  (* the class hidden of #nextToMapBtn *)
    contactsCheckboxes : list (Contact * bool); (* #contactsCheckboxes, with checked *)
    saved : option (list Contact * list string) }.

Definition selected (b : Book) : list string := b.(world).(appState).(selectedContacts).

Definition set_selectedContacts (v : list string) : World -> World :=
  upd_app (fun a =>
    mkAppState (a.(currentStep)) (a.(currentLocation)) (a.(destination)) v
      (a.(tracking)) (a.(arrived)) (a.(geofenceRadius)) (a.(distance)) (a.(updateCount))
      (a.(watchId)) (a.(lastTrackingCallback)) (a.(pollIntervalId))
      (a.(backgroundTrackingActive)) (a.(backgroundWatcherId))).

(** [Array.prototype.includes] on strings. *)
Definition includes (l : list string) (x : string) : bool := existsb (String.eqb x) l.

Module ContactManager.

(** 872-910. *)
Definition renderContacts (b : Book) : Book :=
  mkBook b.(contacts) b.(world) b.(contactName) b.(contactPhone)
    b.(contacts) (Nat.eqb (List.length b.(contacts)) 0)
    b.(contactsCheckboxes) b.(saved).

(** 912-927. *)
Definition renderContactCheckboxes (b : Book) : Book :=
  mkBook b.(contacts) b.(world) b.(contactName) b.(contactPhone)
    b.(contactsList) b.(nextToMapBtnHidden)
    (map (fun c => (c, includes (selected b) c.(contact_phone))) b.(contacts))
    b.(saved).

(** 929-932. *)
Definition saveContacts (b : Book) : Book :=
  mkBook b.(contacts) b.(world) b.(contactName) b.(contactPhone)
    b.(contactsList) b.(nextToMapBtnHidden) b.(contactsCheckboxes)
    (Some (b.(contacts), selected b)).

Definition inWorld (f : World -> World) (b : Book) : Book :=
  mkBook b.(contacts) (f b.(world)) b.(contactName) b.(contactPhone)
    b.(contactsList) b.(nextToMapBtnHidden) b.(contactsCheckboxes) b.(saved).

(** 827-852. *)
Definition addContact (b : Book) : Book :=
  let name := trim b.(contactName) in
  let phone := trim b.(contactPhone) in
  if String.eqb name "" || String.eqb phone ""
  then inWorld (showError "contactsError") b
  else if negb (validPhone phone)
  then inWorld (showError "contactsError") b
  else
    let b1 :=
      mkBook (b.(contacts) ++ [mkContact name phone])
        (set_selectedContacts (selected b ++ [phone]) b.(world))
        "" "" b.(contactsList) b.(nextToMapBtnHidden) b.(contactsCheckboxes) b.(saved) in
    saveContacts (renderContacts (inWorld (hideError "contactsError") b1)).

(** 854-860; [None] when [AppState.contacts[index]] is [undefined] and
    reading its [phone] throws. *)
Definition removeContact (index : nat) (b : Book) : option Book :=
  match nth_error b.(contacts) index with
  | None => None
  | Some c =>
      let phoneToRemove := c.(contact_phone) in
      let b1 :=
        mkBook (remove_nth index b.(contacts))
          (set_selectedContacts
             (filter (fun p => negb (String.eqb p phoneToRemove)) (selected b))
             b.(world))
          b.(contactName) b.(contactPhone) b.(contactsList) b.(nextToMapBtnHidden)
          b.(contactsCheckboxes) b.(saved) in
      Some (saveContacts (renderContacts b1))
  end.

(** 862-870. *)
Definition toggleList (phone : string) (l : list string) : list string :=
  let index := indexOf phone l in
  if (index >? -1)%Z
  then remove_nth (Z.to_nat index) l
  else l ++ [phone].

Definition toggleContact (phone : string) (b : Book) : Book :=
  renderContactCheckboxes
    (inWorld (set_selectedContacts (toggleList phone (selected b))) b).

End ContactManager.

(** ** MapService: choosing the destination (app.js 618-653, 798-823)

    The markers, the circle and the centre of the map are the map's. *)
Module MapService.

(** 618-624. *)
Definition selectDestinationFromMap (lat lng : R) : World -> World :=
  set_destination (Some (mkDestination "Selected Location" lat lng)).

(** 798-799. *)
Definition selectPlace (place : Destination) : World -> World :=
  set_destination (Some place).

End MapService.

(** 642-646: the [dragend] listener of the marker that
    [selectDestinationFromMap] puts on the map.  It writes into
    [AppState.destination], and throws when that is [null]; [resetApp] leaves
    the marker on the map. *)
Definition dragend (lat lng : R) (w : World) : World :=
  match w.(appState).(destination) with
  | Some d => set_destination (Some (mkDestination d.(dest_name) lat lng)) w
  | None => w
  end.

(** ** The events of the page that choose the destination

    Besides the events of the tracking engine, the user chooses the
    destination: a place of the list or its marker (734, 759), a click on the
    map (592-594), or the marker dragged.  Whether the map shows the marker
    is not tracked: these events may come at any time.  The handlers of the
    permission step (1179-1198), of the contacts and of the radius are not
    events of these runs. *)
Inductive PageEvent :=
| Engine (ev : Event)
| SelectPlace (place : Destination)
| MapClick (lat lng : R)
| DragEnd (lat lng : R).

Definition pageStep (s : Sys) (pe : PageEvent) : Sys :=
  match pe with
  | Engine ev => step s ev
  | SelectPlace place => (MapService.selectPlace place (fst s), snd s)
  | MapClick lat lng => (MapService.selectDestinationFromMap lat lng (fst s), snd s)
  | DragEnd lat lng => (dragend lat lng (fst s), snd s)
  end.

Definition pageRun (s : Sys) (evs : list PageEvent) : Sys := fold_left pageStep evs s.


(** The events that give the page a destination when it has none; [DragEnd]
    moves one that is there. *)
Definition chooses (pe : PageEvent) : bool :=
  match pe with
  | SelectPlace _ | MapClick _ _ => true
  | _ => false
  end.

Definition keepsChoice (pe : PageEvent) : bool := negb (chooses pe).

(** A trip on a native platform is cancelled and [CapGeo.clearWatch] fails,
    so that the watch stays live. *)
Definition cancelWatchKept : list Event :=
  nativeStart ++
  [ ClickCancelTrip;
    Settle 0 Rejected ].                       (* CapGeo.clearWatch fails: watch 1 stays *)



(** ** What is displayed of a distance (app.js 73-77, 1031-1037) *)

(** The text of a distance: [Calculating...], [<n>m], or the kilometres with
    two decimals, given in hundredths of a kilometre. *)
Inductive DistanceText :=
| Calculating
| Metres (n : Z)
| Kilometres (hundredths : Z).

(** [Math.round(x)]: the nearest integer, the larger one of two. *)
Definition round (x : R) : Z := Zfloor (x + 1 / 2).

(** 73-77.  [div] is the division of JavaScript numbers: [meters / 1000] is
    a double, the quotient rounded, and [toFixed] reads that double.
    [(q).toFixed(2)] for [q >= 1] writes the integer nearest to [100 q], the
    larger one of two, with a point before its last two digits. *)
Definition formatDistance (div : R -> R -> R) (meters : option R) : DistanceText :=
  match meters with
  | None => Calculating
  | Some m =>
      if Rlt_dec m 1000 then Metres (round m)
      else Kilometres (round (div m 1000 * 100))
  end.

(** A division that is off by the part [err] of its result. *)
Definition divOff (err : R) (x y : R) : R := x / y * (1 - err).

(** 1034: the width of the progress bar, in percent. *)
Definition progress (distance radius : R) : R :=
  Rmax 0 (Rmin 100 (100 - distance / radius * 100)).

(** ** getApiBase (app.js 19-29) *)

(** [saved.replace(/\/+$/, '')]. *)
Definition stripSlashes (s : string) : string := dropEnd (fun c => Ascii.eqb c "/") s.

(** [saved] is [localStorage.getItem('safereach_api_base')], [origin] is
    [window.location.origin]. *)
Definition getApiBase (saved : option string) (capacitor : bool) (origin : string)
  : string :=
  match saved with
  | Some s =>
      if negb (String.eqb s "") then stripSlashes s
      else if negb capacitor then origin else "http://10.0.2.2:8000"
  | None => if negb capacitor then origin else "http://10.0.2.2:8000"
  end.

(** ** Counting and ends of strings, for the statements *)

Fixpoint countString (p : Ascii.ascii -> bool) (s : string) : nat :=
  match s with
  | EmptyString => 0
  | String c t => (if p c then 1 else 0) + countString p t
  end.

Fixpoint lastChar (s : string) : option Ascii.ascii :=
  match s with
  | EmptyString => None
  | String c EmptyString => Some c
  | String _ t => lastChar t
  end.

(** How often [x] occurs in [l]. *)
Definition occurrences (x : string) (l : list string) : nat := count_occ string_dec l x.

(** Every selected number is the number of a listed contact. *)
Definition wellSelected (b : Book) : Prop :=
  incl (selected b) (map contact_phone b.(contacts)).

(** A character a valid phone number can hold. *)
Definition phoneChar (c : Ascii.ascii) : bool :=
  isDigit c || isSpace c || Ascii.eqb c "-" || Ascii.eqb c "+".

(** Every listed contact has a phone number that [addContact] accepts. *)
Definition validContacts (b : Book) : Prop :=
  Forall (fun c => validPhone c.(contact_phone) = true) b.(contacts).

(** The state of the contacts page that the handlers keep: the selection
    names listed contacts only, the listed numbers are valid, and the list on
    the page, whose buttons carry the indices, is the list of the state. *)
Definition consistent (b : Book) : Prop :=
  wellSelected b /\ validContacts b /\ b.(contactsList) = b.(contacts).

(** The page before any contact is added, in world [w]. *)
Definition emptyBook (w : World) : Book := mkBook [] w "" "" [] true [] None.

(** The two inputs filled in. *)
Definition typed (name phone : string) (b : Book) : Book :=
  mkBook b.(contacts) b.(world) name phone b.(contactsList) b.(nextToMapBtnHidden)
    b.(contactsCheckboxes) b.(saved).

(** ** What the server is told about a trip *)

(** The requests that carry a position, the destination or the arrival
    message; [TripReset] carries nothing of them. *)
Definition is_report (e : Effect) : bool :=
  match e with
  | Fetch Gps | Fetch SetDestination | Fetch SendMessage => true
  | _ => false
  end.

Definition reported (w : World) : nat := count is_report w.(trace).

Definition is_tripReset (e : Effect) : bool :=
  match e with Fetch TripReset => true | _ => false end.

(** ** The browser's watch *)

(** The live watches of [navigator.geolocation] are exactly the stored one. *)
Definition oneNavWatch (w : World) : Prop :=
  w.(plat).(navWatches) =
  match w.(appState).(watchId) with
  | Some id => [id]
  | None => []
  end.

(** An [await] of the start of a subscription. *)
Definition is_starting (t : Task) : bool :=
  match t with
  | AwaitFetchSetDestination | AwaitAddWatcher _ | AwaitWatchPosition _ => true
  | _ => false
  end.

(** A page in a browser whose only live watch is the stored one and where no
    start is under way. *)
Definition browserQuiet (s : Sys) : Prop :=
  (fst s).(env).(isCapacitor) = false /\
  (fst s).(env).(navGeolocation) = true /\
  oneNavWatch (fst s) /\
  count is_starting (snd s) = 0%nat.

(** What a piece of code leaves of that, from [w]. *)
Definition keepsQuiet (w : World) (s : Sys) : Prop :=
  (fst s).(env) = w.(env) /\ oneNavWatch (fst s) /\ count is_starting (snd s) = 0%nat.

(** From [w], a piece of code left the page without a destination, reported
    nothing, and did not make the trip arrive. *)
Definition unreported (w : World) (s : Sys) : Prop :=
  (fst s).(appState).(destination) = None /\
  reported (fst s) = reported w /\
  (w.(appState).(arrived) = false -> (fst s).(appState).(arrived) = false).

(** What [cancelTrip] leaves of [w]. *)
Definition cancelled (w : World) (s : Sys) : Prop :=
  let a := (fst s).(appState) in
  (a.(tracking) = false /\ a.(arrived) = false /\
   a.(currentLocation) = None /\ a.(destination) = None /\ a.(distance) = None /\
   a.(updateCount) = 0%nat /\ a.(pollIntervalId) = None /\
   a.(currentStep) = "permission" /\ (fst s).(wakeLock) = None) /\
  (a.(selectedContacts) = w.(appState).(selectedContacts) /\
   a.(geofenceRadius) = w.(appState).(geofenceRadius)) /\
  (count is_tripReset (fst s).(trace) = S (count is_tripReset w.(trace)) /\
   reported (fst s) = reported w) /\
  (List.length (snd s) <= 1)%nat /\
  (onePollTimer w -> (fst s).(plat).(timers) = []).

(** A piece of code asked for no arrival message. *)
Definition unsent (w : World) (s : Sys) : Prop := sent (fst s) = sent w.

(** The fix [loc] is inside the geofence of the destination of [w]. *)
Definition insideGeofence (loc : Loc) (w : World) : Prop :=
  exists d,
    w.(appState).(destination) = Some d /\
    within (Utils.calculateDistance loc.(lat) loc.(lng) d.(dest_lat) d.(dest_lng))
      w.(appState).(geofenceRadius) = true.

(** * Properties *)

(** ** The distance function *)

Section Distance.

Import Utils.

Lemma sin_half_sq_swap (x y : R) :
  sin ((x - y) * PI / 180 / 2) * sin ((x - y) * PI / 180 / 2) =
  sin ((y - x) * PI / 180 / 2) * sin ((y - x) * PI / 180 / 2).
Proof.
  replace ((x - y) * PI / 180 / 2) with (- ((y - x) * PI / 180 / 2)) by lra.
  rewrite sin_neg. ring.
Qed.

Lemma calculateDistance_self (lat lng : R) : calculateDistance lat lng lat lng = 0.
Proof.
  unfold calculateDistance.
  replace ((lat - lat) * PI / 180 / 2) with 0 by lra.
  replace ((lng - lng) * PI / 180 / 2) with 0 by lra.
  rewrite sin_0.
  replace (0 * 0 + cos (lat * PI / 180) * cos (lat * PI / 180) * 0 * 0) with 0 by ring.
  rewrite sqrt_0, asin_0. ring.
Qed.

Lemma calculateDistance_sym (lat1 lng1 lat2 lng2 : R) :
  calculateDistance lat1 lng1 lat2 lng2 = calculateDistance lat2 lng2 lat1 lng1.
Proof.
  unfold calculateDistance.
  rewrite (sin_half_sq_swap lat2 lat1).
  set (h := sin ((lat1 - lat2) * PI / 180 / 2) * sin ((lat1 - lat2) * PI / 180 / 2)).
  set (c1 := cos (lat1 * PI / 180)). set (c2 := cos (lat2 * PI / 180)).
  replace (c1 * c2 * sin ((lng2 - lng1) * PI / 180 / 2) * sin ((lng2 - lng1) * PI / 180 / 2))
    with (c2 * c1 * (sin ((lng2 - lng1) * PI / 180 / 2) * sin ((lng2 - lng1) * PI / 180 / 2)))
    by ring.
  rewrite (sin_half_sq_swap lng2 lng1).
  do 5 f_equal. ring.
Qed.

Lemma calculateDistance_spec (lat1 lng1 lat2 lng2 : R) :
  calculateDistance lat1 lng1 lat2 lng2 = haversine_spec 6371000 lat1 lng1 lat2 lng2.
Proof.
  unfold calculateDistance, haversine_spec, hav, deg2rad, Rsqr.
  replace (lat2 * PI / 180 - lat1 * PI / 180) with ((lat2 - lat1) * PI / 180) by lra.
  replace (lng2 * PI / 180 - lng1 * PI / 180) with ((lng2 - lng1) * PI / 180) by lra.
  set (x := sin ((lat2 - lat1) * PI / 180 / 2)).
  set (y := sin ((lng2 - lng1) * PI / 180 / 2)).
  set (c := cos (lat1 * PI / 180) * cos (lat2 * PI / 180)).
  replace (x * x + c * y * y) with (x * x + c * (y * y)) by ring.
  ring.
Qed.

(** On a meridian, less than a quarter turn apart, the distance is the arc. *)
Lemma calculateDistance_meridian (lat lng : R) :
  0 <= lat <= 180 ->
  calculateDistance lat lng 0 lng = 6371000 * (lat * PI / 180).
Proof.
  intros Hlat. unfold calculateDistance.
  assert (Hpi := PI_RGT_0).
  replace ((lng - lng) * PI / 180 / 2) with 0 by lra.
  rewrite sin_0.
  replace ((0 - lat) * PI / 180 / 2) with (- (lat * PI / 360)) by lra.
  rewrite sin_neg.
  replace (- sin (lat * PI / 360) * - sin (lat * PI / 360) +
           cos (lat * PI / 180) * cos (0 * PI / 180) * 0 * 0)
    with (sin (lat * PI / 360) * sin (lat * PI / 360)) by ring.
  assert (Hlo : 0 <= lat * PI / 360) by nra.
  assert (Hhi : lat * PI / 360 <= PI / 2) by nra.
  rewrite sqrt_square by (apply sin_ge_0; lra).
  rewrite asin_sin by lra.
  lra.
Qed.

Lemma lat500_range : 0 <= lat500 <= 180.
Proof.
  unfold lat500. assert (Hpi := PI2_1).
  assert (H : 0 < 6371000 * PI) by lra.
  split.
  - apply Rlt_le, Rdiv_lt_0_compat; lra.
  - apply Rlt_le. apply (Rmult_lt_reg_r (6371000 * PI)); [exact H|].
    unfold Rdiv. rewrite Rmult_assoc, Rinv_l by lra. lra.
Qed.

Lemma calculateDistance_at500 :
  calculateDistance at500.(lat) at500.(lng) home.(dest_lat) home.(dest_lng) = 500.
Proof.
  cbn. rewrite calculateDistance_meridian by exact lat500_range.
  unfold lat500. assert (Hpi := PI_RGT_0). field. lra.
Qed.

(** C8.  [Utils.calculateDistance] is the haversine formula on a sphere of
    radius 6 371 000 m: it equals [haversine_spec] at that radius for all
    arguments.  It is a function of its four arguments alone (it reads and
    writes nothing else).  The distance from a point to itself is 0, and the
    distance is symmetric in its two points. *)
Theorem calculateDistance_haversine :
  (forall lat1 lng1 lat2 lng2,
     calculateDistance lat1 lng1 lat2 lng2 =
     haversine_spec 6371000 lat1 lng1 lat2 lng2) /\
  (forall lat lng, calculateDistance lat lng lat lng = 0) /\
  (forall lat1 lng1 lat2 lng2,
     calculateDistance lat1 lng1 lat2 lng2 = calculateDistance lat2 lng2 lat1 lng1).
Proof.
  split; [exact calculateDistance_spec|].
  split; [exact calculateDistance_self | exact calculateDistance_sym].
Qed.

End Distance.

(** ** Counting in traces *)

Lemma count_app {A : Type} (p : A -> bool) (l1 l2 : list A) :
  count p (l1 ++ l2) = (count p l1 + count p l2)%nat.
Proof. unfold count. rewrite filter_app, length_app. reflexivity. Qed.

Lemma count_cons {A : Type} (p : A -> bool) (x : A) (l : list A) :
  count p (x :: l) = (Nat.b2n (p x) + count p l)%nat.
Proof. unfold count. cbn. destruct (p x); reflexivity. Qed.

Lemma count_nil {A : Type} (p : A -> bool) : count p [] = 0%nat.
Proof. reflexivity. Qed.

Lemma count_snoc {A : Type} (p : A -> bool) (l : list A) (x : A) :
  count p (l ++ [x]) = (count p l + Nat.b2n (p x))%nat.
Proof. rewrite count_app, count_cons, count_nil. lia. Qed.

Lemma count_remove_nth {A : Type} (p : A -> bool) (l : list A) (i : nat) (x : A) :
  nth_error l i = Some x ->
  count p l = (count p (remove_nth i l) + Nat.b2n (p x))%nat.
Proof.
  revert i. induction l as [|y l IH]; intros [|i] H; cbn in H; try discriminate.
  - injection H as ->. cbn [remove_nth]. rewrite count_cons. lia.
  - cbn [remove_nth]. rewrite !count_cons, (IH i H). lia.
Qed.

(** ** The arrival test *)

Lemma within_le (dist radius : R) : within dist radius = true <-> dist <= radius.
Proof.
  unfold within. destruct (Rle_dec dist radius); split; intros; try easy.
Qed.

Lemma within_refl (x : R) : within x x = true.
Proof. apply within_le. lra. Qed.

Lemma within_atHome (lat lng : R) :
  within (Utils.calculateDistance lat lng lat lng) 500 = true.
Proof. apply within_le. rewrite calculateDistance_self. lra. Qed.

(** The same for the point at 500 m, with its latitude written out. *)
Lemma within_at500 :
  within (Utils.calculateDistance (500 * 180 / (6371000 * PI)) 0 0 0) 500 = true.
Proof.
  apply within_le. pose proof calculateDistance_at500 as H. cbn in H.
  unfold lat500 in H. lra.
Qed.

(** ** Proof automation for the straight-line code *)

Ltac unfold_program :=
  cbv beta delta [resume navWatchSuccess navWatchError capWatchCallback
    bgWatcherCallback pollTick pollTick_resume applyPosition applyLoc call
    onVisibilityChange onVisibilityChange_resume reacquireWatch onAppStateChange
    TrackingService.startTracking TrackingService.startTracking_resume
    TrackingService.trackingCallback TrackingService.trackingCallback_resume
    TrackingService.handleArrival TrackingService.handleArrival_resume
    TrackingService.updateTrackingUI TrackingService.updateProgressBar
    TrackingService.cancelTrip TrackingService.resetApp
    LocationService.startTracking LocationService.startCapacitorTracking
    LocationService.setupBackgroundTracking
    LocationService.setupBackgroundTracking_resume
    LocationService.foregroundWatch LocationService.foregroundWatch_resume
    LocationService.finishStart LocationService.startPoll
    LocationService.sendLocationToServer
    LocationService.stopTracking LocationService.stopTracking_background
    LocationService.removeWatcher_resume LocationService.clearWatch_resume
    LocationService.stopTracking_tail LocationService.backgroundStopped
    requestWakeLock requestWakeLock_resume releaseWakeLock
    andThen lift] in *.

(** Case analysis on the innermost test the goal is stuck on. *)
Ltac split_ifs :=
  repeat match goal with
  | |- context [match ?x with _ => _ end] =>
      lazymatch x with
      | context [match _ with _ => _ end] => fail
      | _ => destruct x eqn:?
      end; cbn in *
  end.

(** Case analysis on what the goal is stuck on, using the cases already
    chosen. *)
Ltac case_stuck :=
  repeat first
    [ progress cbn in *
    | match goal with
      | H : ?x = _ |- context [match ?x with _ => _ end] => rewrite H
      end
    | match goal with
      | |- context [match ?x with _ => _ end] =>
          lazymatch x with
          | context [match _ with _ => _ end] => fail
          | _ => destruct x eqn:?
          end
      end ].

Ltac tally :=
  unfold sent, completed, awaited in *; cbn;
  rewrite ?count_snoc, ?count_app, ?count_cons, ?count_nil; cbn.

(** Running a list of events on a given state, one event at a time; real
    numbers are left as they are written. *)
Ltac compute_but_reals :=
  cbv -[within Utils.calculateDistance IZR Rplus Rminus Rmult Rdiv Ropp Rinv PI step].

Ltac eval_step :=
  match goal with
  | |- context [step (?w, ?ts) ?e] =>
      let x := eval cbv -[within Utils.calculateDistance
                          IZR Rplus Rminus Rmult Rdiv Ropp Rinv PI]
               in (step (w, ts) e) in
      change (step (w, ts) e) with x;
      rewrite ?within_atHome, ?within_at500; cbn [andb negb]
  end.

Ltac run_events :=
  compute_but_reals;
  repeat eval_step;
  cbv -[within Utils.calculateDistance IZR Rplus Rminus Rmult Rdiv Ropp Rinv PI].

(** ** The power hold *)

(** C10.  Releasing the wake lock when none is held (never acquired, or
    released before) changes nothing: no call to the platform, no exception.
    After any call the handle is [null], and a second call in a row does
    nothing more than the first.  A call touches nothing but the handle, the
    lock it names (dropped from the live locks, if it is still there) and
    the trace. *)
Theorem releaseWakeLock_idempotent :
  (forall e a p tr,
     releaseWakeLock (mkWorld e a None p tr) = mkWorld e a None p tr) /\
  (forall w, (releaseWakeLock w).(wakeLock) = None) /\
  (forall w, releaseWakeLock (releaseWakeLock w) = releaseWakeLock w) /\
  (forall w,
     (releaseWakeLock w).(appState) = w.(appState) /\
     (releaseWakeLock w).(plat).(locks) = without w.(wakeLock) w.(plat).(locks) /\
     (releaseWakeLock w).(plat).(timers) = w.(plat).(timers) /\
     (releaseWakeLock w).(plat).(capWatches) = w.(plat).(capWatches) /\
     (releaseWakeLock w).(plat).(navWatches) = w.(plat).(navWatches) /\
     (releaseWakeLock w).(plat).(bgWatchers) = w.(plat).(bgWatchers)).
Proof.
  split; [reflexivity|].
  split; [|split]; intros w; repeat split;
    unfold releaseWakeLock, without; destruct (wakeLock w) eqn:E; cbn;
    try rewrite E; reflexivity.
Qed.

(** ** The geofence boundary *)

(** What [handleArrival] does when the trip has not arrived yet. *)
Lemma handleArrival_fresh (w : World) (d : Destination) :
  w.(appState).(arrived) = false ->
  w.(appState).(destination) = Some d ->
  let res := TrackingService.handleArrival w in
  (fst res).(appState).(arrived) = true /\
  (fst res).(appState).(tracking) = false /\
  sent (fst res) = S (sent w) /\
  completed (fst res) = completed w /\
  awaited (snd res) = 1%nat /\
  In AwaitFetchSendMessage (snd res).
Proof.
  intros Ha Hd. unfold_program. cbn. rewrite Ha. cbn.
  split_ifs; try congruence.
  all: tally; repeat split; try lia; auto 6 using in_eq, in_cons.
Qed.

(** C9.  The arrival test includes the boundary: with a geofence radius of
    500 m, a trip that has not arrived, and a fix whose distance to the
    destination is exactly 500 m, the callback performs the arrival
    transition ([arrived] becomes true, tracking stops, the arrival message
    is requested). *)
Theorem arrival_boundary_inclusive (w : World) (loc : Loc) (d : Destination) (r : Response) :
  w.(appState).(destination) = Some d ->
  w.(appState).(arrived) = false ->
  w.(appState).(geofenceRadius) = 500 ->
  Utils.calculateDistance loc.(lat) loc.(lng) d.(dest_lat) d.(dest_lng) = 500 ->
  let res := TrackingService.trackingCallback_resume loc r w in
  (fst res).(appState).(arrived) = true /\
  (fst res).(appState).(tracking) = false /\
  sent (fst res) = S (sent w) /\
  In AwaitFetchSendMessage (snd res).
Proof.
  intros Hd Ha Hr Hdist.
  unfold TrackingService.trackingCallback_resume. rewrite Hd, Hdist.
  cbn. rewrite Hr, Ha, within_refl. cbn.
  match goal with |- context [TrackingService.handleArrival ?w'] =>
    destruct (handleArrival_fresh w' d Ha Hd) as (H1 & H2 & H3 & _ & _ & H6)
  end.
  repeat split; try assumption.
  rewrite H3. tally. lia.
Qed.

Lemma arrival_boundary_inclusive_witness :
  let w := World0 browser (ready atHome home contacts1) in
  let res := TrackingService.trackingCallback_resume at500 Resolved w in
  (fst res).(appState).(arrived) = true /\
  (fst res).(appState).(tracking) = false /\
  sent (fst res) = S (sent w) /\
  In AwaitFetchSendMessage (snd res).
Proof.
  apply (arrival_boundary_inclusive (World0 browser (ready atHome home contacts1))
           at500 home Resolved);
    [reflexivity | reflexivity | reflexivity | exact calculateDistance_at500].
Defined.

(** The same from the start of a trip: the first fix of the watch is at
    500 m from the destination, and the trip arrives. *)
Example boundary_fix_arrives :
  let s := run (start0 native) arriveOnBoundary in
  (fst s).(appState).(arrived) = true /\
  (fst s).(appState).(tracking) = false /\
  sent (fst s) = 1%nat /\
  snd s = [AwaitClearWatch 1%positive; AwaitFetchSendMessage].
Proof.
  run_events. repeat split.
Qed.

(** ** Starting a trip *)

(** C5, as the code has it.  [TrackingService.startTracking] refuses to start
    when no destination is chosen or no contact is selected: it shows the
    error [messageError], changes nothing in [AppState] (so the trip is not
    tracking), asks nothing of the server and leaves nothing pending.  When
    the server accepts the destination, the trip is tracking and
    [updateCount] is 0, and [currentLocation] is what it was. *)
Theorem startTracking_validation :
  (forall w,
     w.(appState).(destination) = None \/ w.(appState).(selectedContacts) = [] ->
     let res := TrackingService.startTracking w in
     snd res = [] /\
     (fst res).(appState) = w.(appState) /\
     (fst res).(trace) = w.(trace) ++ [ShowError "messageError"]) /\
  (forall w r,
     http_ok r = true ->
     let res := TrackingService.startTracking_resume r w in
     (fst res).(appState).(tracking) = true /\
     (fst res).(appState).(updateCount) = 0%nat /\
     (fst res).(appState).(currentLocation) = w.(appState).(currentLocation)).
Proof.
  split.
  - intros w [H | H]; unfold TrackingService.startTracking; rewrite H; cbn.
    + destruct w as [e [] wl p tr]; cbn in *. auto.
    + destruct (destination (appState w)); cbn; destruct w as [e [] wl p tr]; cbn in *; auto.
  - intros w r Hr. unfold_program. rewrite Hr. cbn. split_ifs; auto.
Qed.

Lemma startTracking_validation_witness :
  (let w := World0 browser AppState0 in
   let res := TrackingService.startTracking w in
   snd res = [] /\
   (fst res).(appState) = w.(appState) /\
   (fst res).(trace) = w.(trace) ++ [ShowError "messageError"]) /\
  (let w := World0 browser (ready atHome home contacts1) in
   let res := TrackingService.startTracking_resume Resolved w in
   (fst res).(appState).(tracking) = true /\
   (fst res).(appState).(updateCount) = 0%nat /\
   (fst res).(appState).(currentLocation) = w.(appState).(currentLocation)).
Proof.
  split.
  - apply (proj1 startTracking_validation (World0 browser AppState0)).
    left. reflexivity.
  - apply (proj2 startTracking_validation
             (World0 browser (ready atHome home contacts1)) Resolved).
    reflexivity.
Defined.

(** C5, as stated, fails: a trip started in the browser from the message
    step is tracking with [updateCount] 0, and [currentLocation] still holds
    the location of step 1. *)
Lemma startTracking_keeps_currentLocation :
  let s := run (start0 browser)
               [ClickStartTracking; Settle 0 Resolved] in
  (fst s).(appState).(tracking) = true /\
  (fst s).(appState).(updateCount) = 0%nat /\
  (fst s).(appState).(currentLocation) = Some atHome /\
  (fst s).(appState).(currentLocation) <> None.
Proof.
  cbn. repeat split. discriminate.
Qed.

(** ** The arrival notification *)

Lemma snoc2 {A : Type} (l : list A) (x y : A) : (l ++ [x]) ++ [y] = l ++ [x; y].
Proof. rewrite <- app_assoc. reflexivity. Qed.

(** ** At most one arrival *)

Lemma Balance_refl (s : Sys) : Balance s s.
Proof. unfold Balance. auto. Qed.

Lemma Balance_trans (s1 s2 s3 : Sys) : Balance s1 s2 -> Balance s2 s3 -> Balance s1 s3.
Proof. unfold Balance. intros (A1 & B1 & C1) (A2 & B2 & C2). repeat split; auto; lia. Qed.

Ltac balance :=
  intro w; unfold Balance, arrivedIn; unfold_program; cbn;
  split_ifs; tally; repeat split; first [congruence | lia].

Lemma trackingCallback_resume_balanced (loc : Loc) (r : Response) :
  balanced (TrackingService.trackingCallback_resume loc r).
Proof. balance. Qed.

Lemma resume_balanced (t : Task) (r : Response) :
  is_awaitSendMessage t = false -> balanced (resume t r).
Proof.
  destruct t; intros Ht; try discriminate Ht; try (destruct callback); cbn [resume].
  - balance.
  - balance.
  - balance.
  - balance.
  - balance.
  - balance.
  - balance.
  - apply trackingCallback_resume_balanced.
  - balance.
Qed.

(** The completion that was to come after the arrival message comes, once. *)
Lemma handleArrival_resume_completes (r : Response) (w : World) :
  let w' := TrackingService.handleArrival_resume r w in
  w'.(appState).(arrived) = w.(appState).(arrived) /\
  sent w' = sent w /\
  completed w' = S (completed w).
Proof.
  unfold_program. cbn. split_ifs; tally; repeat split; lia.
Qed.

Lemma deliver_balanced (k : Seg) (s : Sys) : balanced k -> Balance s (deliver k s).
Proof.
  intros Hk. destruct s as [w ts]. specialize (Hk w).
  unfold deliver, Balance, arrivedIn in *. cbn [fst snd] in *.
  destruct (k w) as [w' new]. cbn [fst snd] in *.
  unfold awaited in *. rewrite count_app. rewrite count_nil in Hk.
  destruct Hk as (A & B & C). repeat split; auto; lia.
Qed.

Lemma guarded_balanced (live : bool) (k : Seg) (s : Sys) :
  balanced k -> Balance s (guarded live k s).
Proof.
  intros Hk. destruct live; cbn; [apply deliver_balanced, Hk | apply Balance_refl].
Qed.

Lemma settle_balanced (s : Sys) (i : nat) (r : Response) : Balance s (step s (Settle i r)).
Proof.
  destruct s as [w ts]. cbn [step fst snd].
  destruct (nth_error ts i) as [t|] eqn:Hi; [|apply Balance_refl].
  pose proof (count_remove_nth is_awaitSendMessage ts i t Hi) as Hc.
  destruct (is_awaitSendMessage t) eqn:Ht.
  - destruct t; try discriminate Ht.
    destruct (handleArrival_resume_completes r w) as (A & B & C).
    unfold deliver, Balance, arrivedIn, awaited, resume, lift. cbn [fst snd].
    rewrite app_nil_r, A, B, C, Hc. cbn. repeat split; auto; lia.
  - eapply Balance_trans; [|apply deliver_balanced, resume_balanced, Ht].
    unfold Balance, arrivedIn, awaited. cbn [fst snd]. rewrite Hc. cbn.
    repeat split; auto; lia.
Qed.

Lemma step_balanced (s : Sys) (ev : Event) : trip_event ev = true -> Balance s (step s ev).
Proof.
  destruct ev; intros Hev; try discriminate Hev; cbn [step].
  - apply guarded_balanced. balance.
  - apply guarded_balanced. balance.
  - apply guarded_balanced. balance.
  - apply guarded_balanced. balance.
  - apply guarded_balanced. balance.
  - apply settle_balanced.
  - apply deliver_balanced. balance.
  - apply deliver_balanced. balance.
  - apply deliver_balanced. balance.
Qed.

Lemma run_balanced (evs : list Event) (s : Sys) :
  forallb trip_event evs = true -> Balance s (run s evs).
Proof.
  revert s. induction evs as [|ev evs IH]; intros s Hevs; cbn in *.
  - apply Balance_refl.
  - apply andb_prop in Hevs as [Hev Hevs].
    eapply Balance_trans; [apply step_balanced, Hev | apply IH, Hevs].
Qed.

Lemma twoFixes_state :
  let s := run (start0 native) twoFixes in
  (fst s).(appState).(arrived) = true /\
  (fst s).(appState).(tracking) = false /\
  (fst s).(appState).(updateCount) = 2%nat /\
  sent (fst s) = 1%nat /\
  snd s = [AwaitClearWatch 1; AwaitFetchSendMessage].
Proof.
  run_events. repeat split.
Qed.

(** C1.  Over any sequence of events of a trip (fixes from any source, timer
    ticks, answers to pending awaits in any order, foregrounding), the
    arrival message is requested at most once and the completion step is
    shown at most once (counting the completions still to come after a
    request).  Once [arrived] is set it stays set and no further arrival
    message is requested.  [handleArrival] sets [arrived] in the same
    uninterrupted piece of code that starts the notification, and when
    [arrived] is already set it does nothing. *)
Theorem arrival_at_most_once (s0 : Sys) (evs : list Event) :
  forallb trip_event evs = true ->
  let s := run s0 evs in
  (sent (fst s) <= sent (fst s0) + 1)%nat /\
  (completed (fst s) + awaited (snd s) <=
   completed (fst s0) + awaited (snd s0) + 1)%nat /\
  (arrivedIn s0 = true ->
   arrivedIn s = true /\
   sent (fst s) = sent (fst s0) /\
   (completed (fst s) + awaited (snd s) =
    completed (fst s0) + awaited (snd s0))%nat) /\
  (forall w, (fst (TrackingService.handleArrival w)).(appState).(arrived) = true) /\
  (forall w, w.(appState).(arrived) = true -> TrackingService.handleArrival w = (w, [])).
Proof.
  intros Hevs s.
  destruct (run_balanced evs s0 Hevs) as (A & B & C). fold s in A, B, C.
  split; [destruct (arrivedIn s0), (arrivedIn s); cbn in *; lia|].
  split; [destruct (arrivedIn s0), (arrivedIn s); cbn in *; lia|].
  split.
  - intros H0. specialize (A H0). rewrite H0, A in B, C. cbn in B, C.
    repeat split; [assumption | lia | lia].
  - split; intros w.
    + unfold_program. cbn. split_ifs; auto.
    + intros Hw. unfold TrackingService.handleArrival. rewrite Hw. reflexivity.
Qed.

Lemma arrival_at_most_once_witness :
  let s0 := start0 native in
  let s := run s0 twoFixes in
  (sent (fst s) <= sent (fst s0) + 1)%nat /\
  (completed (fst s) + awaited (snd s) <=
   completed (fst s0) + awaited (snd s0) + 1)%nat /\
  (arrivedIn s0 = true ->
   arrivedIn s = true /\
   sent (fst s) = sent (fst s0) /\
   (completed (fst s) + awaited (snd s) =
    completed (fst s0) + awaited (snd s0))%nat) /\
  (forall w, (fst (TrackingService.handleArrival w)).(appState).(arrived) = true) /\
  (forall w, w.(appState).(arrived) = true -> TrackingService.handleArrival w = (w, [])).
Proof.
  apply (arrival_at_most_once (start0 native) twoFixes).
  reflexivity.
Defined.

(** ** A failed arrival notification *)

(** C6.  When the request of the arrival message is answered with a failure
    (the network fails or the response is not ok), the program shows the
    warning [trackingError] and the completion step, and nothing else: the
    trip is still arrived and not tracking, no subscription, timer or wake
    lock is touched, and [arrived] stays set over all later events of the
    trip. *)
Theorem failed_notification_stays_arrived
  (s : Sys) (i : nat) (r : Response) (evs : list Event) :
  nth_error (snd s) i = Some AwaitFetchSendMessage ->
  http_ok r = false ->
  (fst s).(appState).(arrived) = true ->
  (fst s).(appState).(tracking) = false ->
  forallb trip_event evs = true ->
  let s1 := step s (Settle i r) in
  (fst s1).(trace) = (fst s).(trace) ++ [ShowError "trackingError"; ShowStep "complete"] /\
  (fst s1).(appState).(arrived) = true /\
  (fst s1).(appState).(tracking) = false /\
  (fst s1).(appState).(currentStep) = "complete" /\
  (fst s1).(appState).(watchId) = (fst s).(appState).(watchId) /\
  (fst s1).(appState).(pollIntervalId) = (fst s).(appState).(pollIntervalId) /\
  (fst s1).(appState).(backgroundTrackingActive) = (fst s).(appState).(backgroundTrackingActive) /\
  (fst s1).(wakeLock) = (fst s).(wakeLock) /\
  (fst s1).(plat) = (fst s).(plat) /\
  snd s1 = remove_nth i (snd s) /\
  arrivedIn (run s1 evs) = true.
Proof.
  intros Hi Hr Ha Ht Hevs s1.
  assert (E : s1 = (TrackingService.handleArrival_resume r (fst s), remove_nth i (snd s))).
  { subst s1. destruct s as [w ts]. cbn [step fst snd] in *. rewrite Hi.
    unfold deliver, resume, lift. cbn [fst snd]. rewrite app_nil_r. reflexivity. }
  assert (A : arrivedIn s1 = true).
  { rewrite E. unfold arrivedIn, TrackingService.handleArrival_resume.
    rewrite Hr. cbn. exact Ha. }
  split; [|repeat split]; try (rewrite E; unfold TrackingService.handleArrival_resume;
    rewrite Hr; cbn; auto using snoc2; fail).
  exact (proj1 (run_balanced evs s1 Hevs) A).
Qed.

Lemma failed_notification_stays_arrived_witness :
  let s := run (start0 native) twoFixes in
  let evs := [CapWatch 1 (Some atHome) false; Settle 1 Resolved] in
  let s1 := step s (Settle 1 Rejected) in
  (fst s1).(trace) = (fst s).(trace) ++ [ShowError "trackingError"; ShowStep "complete"] /\
  (fst s1).(appState).(arrived) = true /\
  (fst s1).(appState).(tracking) = false /\
  (fst s1).(appState).(currentStep) = "complete" /\
  (fst s1).(appState).(watchId) = (fst s).(appState).(watchId) /\
  (fst s1).(appState).(pollIntervalId) = (fst s).(appState).(pollIntervalId) /\
  (fst s1).(appState).(backgroundTrackingActive) = (fst s).(appState).(backgroundTrackingActive) /\
  (fst s1).(wakeLock) = (fst s).(wakeLock) /\
  (fst s1).(plat) = (fst s).(plat) /\
  snd s1 = remove_nth 1 (snd s) /\
  arrivedIn (run s1 evs) = true.
Proof.
  destruct twoFixes_state as (Ha & Ht & _ & _ & Hs).
  apply failed_notification_stays_arrived;
    [rewrite Hs; reflexivity | reflexivity | exact Ha | exact Ht | reflexivity].
Defined.

(** ** Fixes that come after the trip has stopped *)



(** ** The order of the strategies *)

(** C3, as stated, fails: a trip started in the browser is tracking on the
    browser's watch alone; no background watcher was asked for and no poll
    timer is started. *)
Lemma browser_start_has_no_poll :
  let s := run (start0 browser) browserStart in
  (fst s).(appState).(tracking) = true /\
  (fst s).(appState).(watchId) = Some 1%positive /\
  (fst s).(plat).(navWatches) = [1%positive] /\
  (fst s).(appState).(pollIntervalId) = None /\
  (fst s).(plat).(timers) = [] /\
  (fst s).(trace) =
    [HideError "messageError"; Fetch SetDestination; ShowStep "tracking";
     NavWatchPosition 1; WakeLockRequest; ShowTrackingBanner].
Proof.
  run_events. repeat split.
Qed.

(** *** Settling the awaits of one call *)

Lemma settleAll_nil (n : nat) (answer : Task -> Response) (w : World) :
  settleAll n answer (w, []) = (w, []).
Proof. destruct n; reflexivity. Qed.

Lemma settleAll_one (n : nat) (answer : Task -> Response) (w : World) (t : Task) :
  settleAll (S n) answer (w, [t]) = settleAll n answer (resume t (answer t) w).
Proof.
  cbn [settleAll snd step fst nth_error remove_nth]. unfold deliver. cbn [fst snd].
  destruct (resume t (answer t) w) as [w' new]. reflexivity.
Qed.

Lemma startTracking_native (callback : Callback) (w : World) :
  w.(env).(isCapacitor) = true -> w.(env).(CapGeo) = true ->
  LocationService.startTracking callback w =
  if w.(env).(BgGeo)
  then (emit BgAddWatcher w, [AwaitAddWatcher callback])
  else (emit CapWatchPosition w, [AwaitWatchPosition callback]).
Proof.
  intros H1 H2.
  unfold LocationService.startTracking, LocationService.startCapacitorTracking,
    LocationService.setupBackgroundTracking, LocationService.foregroundWatch.
  rewrite H1, H2. cbn. destruct (BgGeo (env w)); reflexivity.
Qed.

(** C3, as the code has it.  On a native platform with the Geolocation
    plugin, [LocationService.startTracking] asks the BackgroundGeolocation
    plugin first, when there is one; if its watcher is added, no foreground
    watch is started.  If there is no such plugin, or adding the watcher
    fails, [CapGeo.watchPosition] is started instead.  Once either of the two
    has given a watcher, any stored poll timer is cleared and a timer of
    15000 ms is started.  In the browser only
    [navigator.geolocation.watchPosition] is started, and no timer. *)
Theorem start_strategy_order :
  (forall w callback answer,
     w.(env).(isCapacitor) = true -> w.(env).(CapGeo) = true ->
     w.(env).(BgGeo) = true ->
     throws (answer (AwaitAddWatcher callback)) = false ->
     backgroundStarted w
       (settleAll 2 answer (LocationService.startTracking callback w))) /\
  (forall w callback answer,
     w.(env).(isCapacitor) = true -> w.(env).(CapGeo) = true ->
     w.(env).(BgGeo) = false \/ throws (answer (AwaitAddWatcher callback)) = true ->
     throws (answer (AwaitWatchPosition callback)) = false ->
     foregroundStarted w
       (settleAll 2 answer (LocationService.startTracking callback w))) /\
  (forall w callback,
     w.(env).(isCapacitor) && w.(env).(CapGeo) = false ->
     w.(env).(navGeolocation) = true ->
     browserStarted w (LocationService.startTracking callback w)).
Proof.
  split; [|split].
  - intros w callback answer H1 H2 H3 H4.
    rewrite startTracking_native, H3, settleAll_one by assumption.
    cbn [resume]. unfold LocationService.setupBackgroundTracking_resume.
    rewrite H4, settleAll_nil.
    unfold backgroundStarted, clearedPoll, without, new_handle.
    unfold_program. cbn.
    destruct (pollIntervalId (appState w)); cbn; rewrite <- ?app_assoc; auto 10.
  - intros w callback answer H1 H2 H3 H4.
    set (w0 := emit CapWatchPosition (if w.(env).(BgGeo) then emit BgAddWatcher w else w)).
    assert (E : settleAll 2 answer (LocationService.startTracking callback w) =
                (LocationService.finishStart callback
                   (set_watchId (Some (new_handle w0)) (add_capWatch w0)), [])).
    { rewrite startTracking_native by assumption. subst w0.
      destruct (BgGeo (env w)).
      - destruct H3 as [H3|H3]; [discriminate H3|].
        rewrite settleAll_one. cbn [resume].
        unfold LocationService.setupBackgroundTracking_resume. rewrite H3.
        unfold LocationService.foregroundWatch. rewrite settleAll_one. cbn [resume].
        unfold LocationService.foregroundWatch_resume. rewrite H4, settleAll_nil.
        reflexivity.
      - rewrite settleAll_one. cbn [resume].
        unfold LocationService.foregroundWatch_resume. rewrite H4, settleAll_nil.
        reflexivity. }
    rewrite E. subst w0. clear E.
    unfold foregroundStarted, clearedPoll, without, new_handle.
    unfold_program. cbn.
    destruct (BgGeo (env w)); cbn;
      destruct (pollIntervalId (appState w)); cbn; rewrite <- ?app_assoc; auto 10.
  - intros w callback H1 H2. unfold browserStarted, new_handle.
    unfold_program. rewrite H1, H2. cbn. auto 10.
Qed.

Lemma start_strategy_order_witness :
  backgroundStarted (fst (start0 nativeBg))
    (settleAll 2 (fun _ => Resolved)
       (LocationService.startTracking TrackingCallback (fst (start0 nativeBg)))) /\
  foregroundStarted (fst (start0 nativeBg))
    (settleAll 2 (fun t => match t with AwaitAddWatcher _ => Rejected | _ => Resolved end)
       (LocationService.startTracking TrackingCallback (fst (start0 nativeBg)))) /\
  browserStarted (fst (start0 browser))
    (LocationService.startTracking TrackingCallback (fst (start0 browser))).
Proof.
  split; [|split].
  - apply (proj1 start_strategy_order); reflexivity.
  - apply (proj1 (proj2 start_strategy_order)); try reflexivity. right. reflexivity.
  - apply (proj2 (proj2 start_strategy_order)); reflexivity.
Defined.

(** ** Stopping *)

(** C4, as stated, fails: a trip with the background watcher is cancelled,
    and [BgGeo.removeWatcher] fails.  When everything has settled the timer
    is cleared and [pollIntervalId], [watchId] and [wakeLock] are [null], and
    yet [backgroundTrackingActive] is true, [backgroundWatcherId] still names
    the watcher, and the watcher is live. *)
Lemma removeWatcher_rejected_keeps_watcher :
  let s := run (start0 nativeBg) cancelRejected in
  snd s = [] /\
  (fst s).(appState).(pollIntervalId) = None /\
  (fst s).(plat).(timers) = [] /\
  (fst s).(appState).(watchId) = None /\
  (fst s).(wakeLock) = None /\
  (fst s).(appState).(backgroundTrackingActive) = true /\
  (fst s).(appState).(backgroundWatcherId) = Some 1%positive /\
  (fst s).(plat).(bgWatchers) = [1%positive].
Proof.
  run_events. repeat split.
Qed.


Lemma andThen_lift (m : World * list Task) (f : World -> World) :
  m ;; lift f = (f (fst m), snd m).
Proof. destruct m as [w ts]. unfold andThen, lift. rewrite app_nil_r. reflexivity. Qed.

Lemma releaseWakeLock_appState (w : World) :
  (releaseWakeLock w).(appState) = w.(appState).
Proof. unfold releaseWakeLock. destruct (wakeLock w); reflexivity. Qed.

Lemma releaseWakeLock_env (w : World) : (releaseWakeLock w).(env) = w.(env).
Proof. unfold releaseWakeLock. destruct (wakeLock w); reflexivity. Qed.

(** The background part of [stopTracking] settles within one answer. *)
Lemma stopTracking_background_settles (answer : Task -> Response) (n : nat) (w : World) :
  resolves answer ->
  (w.(appState).(backgroundTrackingActive) = true -> w.(env).(BgGeo) = true) ->
  settleAll (S n) answer (LocationService.stopTracking_background w) =
  (LocationService.stopTracking_tail
     (if w.(appState).(backgroundTrackingActive)
      then LocationService.backgroundStopped
             match w.(appState).(backgroundWatcherId) with
             | Some b => del_bgWatcher b (emit (BgRemoveWatcher b) w)
             | None => w
             end
      else w), []).
Proof.
  intros Hans Hbg. unfold LocationService.stopTracking_background.
  destruct (backgroundTrackingActive (appState w)).
  - rewrite (Hbg eq_refl). cbn [andb].
    destruct (backgroundWatcherId (appState w)) as [b|].
    + rewrite settleAll_one. cbn [resume].
      unfold LocationService.removeWatcher_resume. rewrite Hans, settleAll_nil.
      reflexivity.
    + rewrite settleAll_nil. reflexivity.
  - rewrite andb_false_r, settleAll_nil. reflexivity.
Qed.

(** C4, as the code has it.  When the platform answers [CapGeo.clearWatch]
    and [BgGeo.removeWatcher] without a rejection, [stopTracking] followed by
    [releaseWakeLock] settles within two answers, and then the poll timer,
    the watch, the background watcher and the wake lock stored in the
    program are cleared, in the program and on the platform. *)
Theorem stopTracking_total (w : World) (answer : Task -> Response) :
  resolves answer ->
  (w.(appState).(backgroundTrackingActive) = true -> w.(env).(BgGeo) = true) ->
  tornDown w (settleAll 2 answer (LocationService.stopTracking w ;; lift releaseWakeLock)).
Proof.
  intros Hans Hbg. rewrite andThen_lift.
  change 2%nat with (S 1).
  unfold LocationService.stopTracking.
  set (w1 := match pollIntervalId (appState w) with
             | Some t => set_pollIntervalId None (clearInterval t w)
             | None => w
             end).
  assert (Hbg1 : backgroundTrackingActive (appState w1) = true -> BgGeo (env w1) = true).
  { subst w1. destruct (pollIntervalId (appState w)); exact Hbg. }
  destruct (watchId (appState w1)) as [i|] eqn:Hi;
    [destruct (isCapacitor (env w1) && CapGeo (env w1)) eqn:Hn|].
  - (* the Capacitor watch is cleared first *)
    cbn [fst snd]. rewrite settleAll_one. cbn [resume].
    unfold LocationService.clearWatch_resume. rewrite Hans.
    rewrite stopTracking_background_settles;
      [| assumption
       | cbn; rewrite releaseWakeLock_appState, releaseWakeLock_env; exact Hbg1].
    subst w1.
    unfold tornDown, without, releaseWakeLock, LocationService.stopTracking_tail,
      LocationService.backgroundStopped in *.
    case_stuck; auto 12.
  - (* a browser watch *)
    unfold LocationService.stopTracking_background.
    destruct (backgroundTrackingActive (appState w1)) eqn:Hb;
      [rewrite (Hbg1 eq_refl) | rewrite andb_false_r]; cbn [andb];
      [destruct (backgroundWatcherId (appState w1)) as [b|] eqn:Hw|];
      cbn [fst snd]; rewrite ?settleAll_one, ?settleAll_nil; cbn [resume];
      unfold LocationService.removeWatcher_resume; rewrite ?Hans, ?settleAll_nil;
      subst w1;
      unfold tornDown, without, releaseWakeLock, LocationService.stopTracking_tail,
        LocationService.backgroundStopped in *;
      case_stuck; auto 12.
  - (* no watch *)
    unfold LocationService.stopTracking_background.
    destruct (backgroundTrackingActive (appState w1)) eqn:Hb;
      [rewrite (Hbg1 eq_refl) | rewrite andb_false_r]; cbn [andb];
      [destruct (backgroundWatcherId (appState w1)) as [b|] eqn:Hw|];
      cbn [fst snd]; rewrite ?settleAll_one, ?settleAll_nil; cbn [resume];
      unfold LocationService.removeWatcher_resume; rewrite ?Hans, ?settleAll_nil;
      subst w1;
      unfold tornDown, without, releaseWakeLock, LocationService.stopTracking_tail,
        LocationService.backgroundStopped in *;
      case_stuck; auto 12.
Qed.

Lemma nativeStart_state :
  let s := run (start0 native) nativeStart in
  (fst s).(appState).(backgroundTrackingActive) = false /\
  (fst s).(appState).(watchId) = Some 1%positive /\
  (fst s).(appState).(pollIntervalId) = Some 2%positive /\
  (fst s).(plat).(capWatches) = [1%positive] /\
  (fst s).(plat).(timers) = [2%positive] /\
  snd s = [].
Proof.
  run_events. repeat split.
Qed.

Lemma stopTracking_total_witness :
  let w := fst (run (start0 native) nativeStart) in
  tornDown w
    (settleAll 2 (fun _ => Resolved)
       (LocationService.stopTracking w ;; lift releaseWakeLock)).
Proof.
  apply stopTracking_total.
  - intros t. reflexivity.
  - intros H. rewrite (proj1 nativeStart_state) in H. discriminate H.
Defined.

(** ** One subscription, one timer *)

(** C7 fails on the code for the watch.  On a native platform without the
    background plugin, a trip is started (watch 1, timer 2) and the app comes
    back to the foreground: the [appStateChange] listener starts tracking
    again.  The timer is replaced (timer 4 alone is live), and the watch is
    not: watches 1 and 3 are both live, and only 3 is stored.  When the trip
    is cancelled afterwards, watch 3 is cleared and watch 1 stays live.  With
    the background plugin, the [visibilitychange] listener does the same to
    the background watcher: [watchId] is [null] in that mode, tracking is
    started again, and watchers 1 and 3 are both live. *)
Theorem foreground_registers_second_watch :
  (let s := run (start0 native) foregrounded in
   (fst s).(plat).(capWatches) = [3%positive; 1%positive] /\
   (fst s).(appState).(watchId) = Some 3%positive /\
   (fst s).(plat).(timers) = [4%positive] /\
   (fst s).(appState).(pollIntervalId) = Some 4%positive /\
   snd s = []) /\
  (let s := run (start0 native) foregroundedThenCancelled in
   (fst s).(plat).(capWatches) = [1%positive] /\
   (fst s).(appState).(watchId) = None /\
   (fst s).(plat).(timers) = [] /\
   snd s = []) /\
  (let s := run (start0 nativeBg) backgroundForegrounded in
   (fst s).(plat).(bgWatchers) = [3%positive; 1%positive] /\
   (fst s).(appState).(backgroundWatcherId) = Some 3%positive /\
   (fst s).(plat).(timers) = [4%positive] /\
   snd s = []).
Proof.
  split; [|split]; run_events; repeat split.
Qed.

(** The poll timer, for comparison, is never doubled: over any events, from
    a state in which the live timers are the stored one, the live timers are
    still the stored one, so there is at most one. *)
Ltac one_timer :=
  intros w Hw; unfold onePollTimer in *; unfold_program;
  case_stuck; cbn in *; rewrite ?Hw; unfold del; cbn; rewrite ?Pos.eqb_refl; cbn;
  case_stuck; first [reflexivity | congruence].

Lemma resume_onePollTimer (t : Task) (r : Response) (w : World) :
  onePollTimer w -> onePollTimer (fst (resume t r w)).
Proof.
  revert w. destruct t; try destruct callback; cbn [resume]; one_timer.
Qed.

Lemma step_onePollTimer (s : Sys) (ev : Event) :
  onePollTimer (fst s) -> onePollTimer (fst (step s ev)).
Proof.
  destruct s as [w ts]. cbn [fst].
  destruct ev; cbn [step fst snd]; unfold guarded, deliver; cbn [fst snd].
  6: { destruct (nth_error ts i) as [t|]; [|auto].
       intros Hw. apply (resume_onePollTimer t r) in Hw.
       destruct (resume t r w). exact Hw. }
  all: try match goal with |- context [if ?b then _ else _] => destruct b; [|auto] end.
  all: revert w; one_timer.
Qed.

Lemma run_onePollTimer (evs : list Event) (s : Sys) :
  onePollTimer (fst s) -> onePollTimer (fst (run s evs)).
Proof.
  revert s. induction evs as [|ev evs IH]; intros s Hs; cbn; [exact Hs|].
  apply IH, step_onePollTimer, Hs.
Qed.

Lemma poll_timer_unique (e : Env) (evs : list Event) :
  (List.length (fst (run (start0 e) evs)).(plat).(timers) <= 1)%nat.
Proof.
  pose proof (run_onePollTimer evs (start0 e) eq_refl) as H.
  rewrite H. destruct (pollIntervalId _); cbn; lia.
Qed.

(** * Properties of the rest of the page *)

(** ** Steps *)

Lemma indexOf_bounds (x : string) (l : list string) :
  (-1 <= indexOf x l < Z.of_nat (List.length l))%Z.
Proof.
  induction l as [|y t IH]; cbn [indexOf List.length]; [lia|].
  destruct (String.eqb y x); [lia|].
  destruct (indexOf x t <? 0)%Z eqn:E; [lia|].
  apply Z.ltb_ge in E. lia.
Qed.

Lemma indexOf_absent (x : string) (l : list string) :
  indexOf x l = (-1)%Z <-> ~ In x l.
Proof.
  induction l as [|y t IH]; cbn [indexOf In]; [tauto|].
  destruct (String.eqb_spec y x) as [->|Hne].
  - split; [discriminate | intros H; exfalso; apply H; now left].
  - pose proof (indexOf_bounds x t) as B.
    destruct (indexOf x t <? 0)%Z eqn:E.
    + apply Z.ltb_lt in E. assert (indexOf x t = (-1)%Z) as Ht by lia.
      split; [intros _ [H|H]; [congruence | now apply IH in H] | reflexivity].
    + apply Z.ltb_ge in E. split; [lia|].
      intros H. exfalso. assert (indexOf x t <> (-1)%Z) as N by lia.
      apply N, IH. intros Hin. apply H. now right.
Qed.

Lemma nextStep_at_complete (w : World) :
  w.(appState).(currentStep) = "complete" -> StepManager.nextStep w = w.
Proof.
  intros H. unfold StepManager.nextStep. rewrite H. reflexivity.
Qed.

Lemma iter_nextStep_complete (n : nat) (w : World) :
  w.(appState).(currentStep) = "complete" -> Nat.iter n StepManager.nextStep w = w.
Proof.
  intros H. induction n as [|n IH]; [reflexivity|].
  rewrite Nat.iter_succ, IH. now apply nextStep_at_complete.
Qed.

(** X1.  [nextStep] walks the six steps in their order: from each step but
    the last it shows the one after it.  At [complete] it does nothing.  From
    a step name that is none of the six it shows [permission].  So from
    [permission], [n] calls lead to the [n]-th step, and to [complete] for
    every [n] from 5 on. *)
Theorem nextStep_walk :
  (forall w i s s',
     nth_error StepManager.steps i = Some s ->
     nth_error StepManager.steps (S i) = Some s' ->
     w.(appState).(currentStep) = s ->
     (StepManager.nextStep w).(appState).(currentStep) = s' /\
     (StepManager.nextStep w).(trace) = w.(trace) ++ [ShowStep s']) /\
  (forall w, w.(appState).(currentStep) = "complete" -> StepManager.nextStep w = w) /\
  (forall w,
     ~ In w.(appState).(currentStep) StepManager.steps ->
     (StepManager.nextStep w).(appState).(currentStep) = "permission") /\
  (forall w n,
     w.(appState).(currentStep) = "permission" ->
     (Nat.iter n StepManager.nextStep w).(appState).(currentStep) =
     nth (Nat.min n 5) StepManager.steps "").
Proof.
  split; [|split; [|split]].
  - intros w i s s' Hi Hs Hw. unfold StepManager.nextStep. rewrite Hw.
    do 5 (destruct i as [|i]; [cbn in Hi, Hs; injection Hi as <-; injection Hs as <-;
                               cbn; auto|]).
    destruct i; discriminate Hs.
  - exact nextStep_at_complete.
  - intros w H. unfold StepManager.nextStep.
    apply indexOf_absent in H. rewrite H. reflexivity.
  - intros w n Hw.
    assert (H5 : forall k, (k <= 5)%nat ->
              (Nat.iter k StepManager.nextStep w).(appState).(currentStep) =
              nth k StepManager.steps "").
    { intros k Hk. destruct w as [e [] wl p tr]. cbn in Hw. subst.
      do 6 (destruct k as [|k]; [reflexivity|]). lia. }
    destruct (Nat.le_gt_cases n 5) as [Hn|Hn].
    + rewrite Nat.min_l by exact Hn. now apply H5.
    + rewrite Nat.min_r by lia.
      replace n with ((n - 5) + 5)%nat by lia.
      rewrite Nat.iter_add. rewrite iter_nextStep_complete; now apply H5.
Qed.

Lemma nextStep_walk_witness :
  (StepManager.nextStep (World0 browser AppState0)).(appState).(currentStep) = "contacts" /\
  (StepManager.nextStep (World0 browser AppState0)).(trace) =
    (World0 browser AppState0).(trace) ++ [ShowStep "contacts"].
Proof.
  apply (proj1 nextStep_walk (World0 browser AppState0) 0%nat "permission" "contacts");
    reflexivity.
Defined.

(** ** Phone numbers *)

Lemma digit_not_separator (c : Ascii.ascii) :
  isDigit c = true -> isSpace c || Ascii.eqb c "-" = false.
Proof.
  destruct c as [[] [] [] [] [] [] [] []]; cbv; intros H;
    first [reflexivity | discriminate H].
Qed.

Lemma plus_not_separator : isSpace "+" || Ascii.eqb "+" "-" = false.
Proof. reflexivity. Qed.

Lemma digit_not_plus (c : Ascii.ascii) : isDigit c = true -> Ascii.eqb c "+" = false.
Proof.
  destruct c as [[] [] [] [] [] [] [] []]; cbv; intros H;
    first [reflexivity | discriminate H].
Qed.

Lemma countString_filter (p keep : Ascii.ascii -> bool) (s : string) :
  (forall c, p c = true -> keep c = true) ->
  countString p (filterString keep s) = countString p s.
Proof.
  intros H. induction s as [|c t IH]; [reflexivity|]. cbn.
  destruct (keep c) eqn:K; cbn; rewrite IH; [reflexivity|].
  destruct (p c) eqn:P; [apply H in P; congruence | reflexivity].
Qed.

Lemma countString_all (p : Ascii.ascii -> bool) (s : string) :
  allString p s = true -> countString p s = String.length s.
Proof.
  induction s as [|c t IH]; [reflexivity|]. cbn.
  intros H. apply andb_prop in H as [-> H]. now rewrite IH.
Qed.

Lemma countString_none (p q : Ascii.ascii -> bool) (s : string) :
  (forall c, p c = true -> q c = false) ->
  allString p s = true -> countString q s = 0%nat.
Proof.
  intros H. induction s as [|c t IH]; [reflexivity|]. cbn.
  intros A. apply andb_prop in A as [Pc A]. now rewrite (H c Pc), IH.
Qed.

Lemma allString_weaken (p q : Ascii.ascii -> bool) (s : string) :
  (forall c, p c = true -> q c = true) -> allString p s = true -> allString q s = true.
Proof.
  intros H. induction s as [|c t IH]; [reflexivity|]. cbn.
  intros A. apply andb_prop in A as [Pc A]. now rewrite (H c Pc), IH.
Qed.

Lemma allString_unfilter (p keep : Ascii.ascii -> bool) (s : string) :
  (forall c, keep c = false -> p c = true) ->
  allString p (filterString keep s) = true -> allString p s = true.
Proof.
  intros H. induction s as [|c t IH]; [reflexivity|]. cbn.
  destruct (keep c) eqn:K; cbn.
  - intros A. apply andb_prop in A as [-> A]. now apply IH.
  - intros A. now rewrite (H c K), IH.
Qed.

Lemma filterString_append (keep : Ascii.ascii -> bool) (s t : string) :
  filterString keep (s ++ t) = (filterString keep s ++ filterString keep t)%string.
Proof.
  induction s as [|c s IH]; [reflexivity|]. cbn.
  destruct (keep c); cbn; now rewrite IH.
Qed.

Lemma filterString_none (keep : Ascii.ascii -> bool) (s : string) :
  allString (fun c => negb (keep c)) s = true -> filterString keep s = "".
Proof.
  induction s as [|c t IH]; [reflexivity|]. cbn.
  intros A. apply andb_prop in A as [K A]. apply negb_true_iff in K. rewrite K. now apply IH.
Qed.

Lemma tenToFifteenDigits_inv (s : string) :
  tenToFifteenDigits s = true ->
  allString isDigit s = true /\ (10 <= String.length s <= 15)%nat.
Proof.
  unfold tenToFifteenDigits. intros H.
  apply andb_prop in H as [H H3]. apply andb_prop in H as [H1 H2].
  apply Nat.leb_le in H2, H3. auto.
Qed.

(** X2.  A phone number that [addContact] accepts holds 10 to 15 digits, at
    most one plus sign, and nothing else but white space and hyphens; and
    white space and hyphens do not matter: putting any of them anywhere in a
    number does not change whether it is accepted. *)
Theorem validPhone_digits :
  (forall phone,
     validPhone phone = true ->
     (10 <= countString isDigit phone <= 15)%nat /\
     (countString (fun c => Ascii.eqb c "+") phone <= 1)%nat /\
     allString phoneChar phone = true) /\
  (forall before separators after,
     allString (fun c => isSpace c || Ascii.eqb c "-") separators = true ->
     validPhone (before ++ separators ++ after) = validPhone (before ++ after)).
Proof.
  split.
  - intros phone H. unfold validPhone, stripSeparators in H.
    set (keep := fun c => negb (isSpace c || Ascii.eqb c "-")) in H.
    assert (Kd : forall c, isDigit c = true -> keep c = true).
    { intros c Hc. unfold keep. now rewrite (digit_not_separator c Hc). }
    assert (Kp : forall c, Ascii.eqb c "+" = true -> keep c = true).
    { intros c Hc. apply Ascii.eqb_eq in Hc. subst c. reflexivity. }
    assert (Ks : forall c, keep c = false -> phoneChar c = true).
    { intros c Hc. unfold keep in Hc. apply negb_false_iff in Hc. unfold phoneChar.
      apply orb_prop in Hc as [-> | ->]; now rewrite ?orb_true_r. }
    rewrite <- (countString_filter isDigit keep phone Kd).
    rewrite <- (countString_filter (fun c => Ascii.eqb c "+") keep phone Kp).
    assert (Hall : allString phoneChar (filterString keep phone) = true ->
                   allString phoneChar phone = true)
      by apply (allString_unfilter phoneChar keep phone Ks).
    destruct (filterString keep phone) as [|c digits] eqn:E.
    + cbn in H. discriminate H.
    + assert (Dd : forall s, tenToFifteenDigits s = true ->
                (10 <= countString isDigit s <= 15)%nat /\
                countString (fun c => Ascii.eqb c "+") s = 0%nat /\
                allString phoneChar s = true).
      { intros s Hs. apply tenToFifteenDigits_inv in Hs as [A L].
        rewrite (countString_all _ _ A).
        rewrite (countString_none isDigit _ s digit_not_plus A).
        split; [lia | split; [reflexivity|]].
        apply (allString_weaken isDigit); [|exact A].
        intros x Hx. unfold phoneChar. now rewrite Hx. }
      destruct (Ascii.eqb c "+") eqn:Ec.
      * apply Ascii.eqb_eq in Ec. subst c. cbn in H.
        destruct (Dd digits H) as (D1 & D2 & D3).
        change (countString isDigit (String "+" digits)) with (countString isDigit digits).
        change (countString (fun c => Ascii.eqb c "+") (String "+" digits))
          with (S (countString (fun c => Ascii.eqb c "+") digits)).
        rewrite D2. split; [lia | split; [lia | apply Hall; exact D3]].
      * assert (H' : tenToFifteenDigits (String c digits) = true).
        { revert H Ec. unfold phonePattern.
          destruct c as [[] [] [] [] [] [] [] []]; cbn; intros H Ec;
            first [exact H | discriminate Ec]. }
        destruct (Dd _ H') as (D1 & D2 & D3).
        rewrite D2. split; [lia | split; [lia | apply Hall; exact D3]].
  - intros before separators after Hs. unfold validPhone, stripSeparators.
    rewrite !filterString_append.
    rewrite (filterString_none _ separators); [reflexivity|].
    apply (allString_weaken _ _ _ (fun c H => eq_trans (negb_involutive _) H) Hs).
Qed.

Lemma validPhone_digits_witness :
  ((10 <= countString isDigit "+1 555-010-0199" <= 15)%nat /\
   (countString (fun c => Ascii.eqb c "+") "+1 555-010-0199" <= 1)%nat /\
   allString phoneChar "+1 555-010-0199" = true) /\
  validPhone ("+1" ++ " - " ++ "5550100199") = validPhone ("+1" ++ "5550100199").
Proof.
  split.
  - apply (proj1 validPhone_digits). reflexivity.
  - apply (proj2 validPhone_digits). reflexivity.
Defined.

(** ** Contacts *)

Lemma includes_In (l : list string) (x : string) : includes l x = true <-> In x l.
Proof.
  unfold includes. rewrite existsb_exists. split.
  - intros (y & Hy & E). apply String.eqb_eq in E. now subst.
  - intros H. exists x. split; [exact H | apply String.eqb_refl].
Qed.

Lemma indexOf_found (x : string) (l : list string) :
  In x l ->
  (0 <= indexOf x l)%Z /\ nth_error l (Z.to_nat (indexOf x l)) = Some x.
Proof.
  induction l as [|y t IH]; cbn [indexOf In]; [tauto|].
  intros H. destruct (String.eqb_spec y x) as [->|Hne]; [split; [lia | reflexivity]|].
  destruct H as [H|H]; [congruence|].
  destruct (IH H) as [B N].
  destruct (indexOf x t <? 0)%Z eqn:E; [apply Z.ltb_lt in E; lia|].
  split; [lia|].
  replace (Z.to_nat (indexOf x t + 1)) with (S (Z.to_nat (indexOf x t))) by lia.
  exact N.
Qed.

Lemma occurrences_remove_nth (l : list string) (i : nat) (x y : string) :
  nth_error l i = Some x ->
  occurrences y l =
  (occurrences y (remove_nth i l) + (if string_dec x y then 1 else 0))%nat.
Proof.
  unfold occurrences.
  revert i. induction l as [|z l IH]; intros [|i] H; cbn in H; try discriminate.
  - injection H as ->. cbn [remove_nth count_occ]. destruct (string_dec x y); lia.
  - cbn [remove_nth count_occ]. rewrite (IH i H). destruct (string_dec z y); lia.
Qed.

Lemma occurrences_snoc (l : list string) (x y : string) :
  occurrences y (l ++ [x]) = (occurrences y l + (if string_dec x y then 1 else 0))%nat.
Proof.
  unfold occurrences. rewrite count_occ_app. cbn. destruct (string_dec x y); lia.
Qed.

Lemma occurrences_In (l : list string) (x : string) :
  In x l <-> (0 < occurrences x l)%nat.
Proof. unfold occurrences. apply count_occ_In. Qed.

Lemma remove_nth_In {A : Type} (l : list A) (i : nat) (x : A) :
  In x (remove_nth i l) -> In x l.
Proof.
  revert i. induction l as [|y l IH]; intros [|i]; cbn; auto.
  intros [H|H]; [now left | right; eauto].
Qed.

Lemma remove_nth_last {A : Type} (l : list A) (x : A) :
  remove_nth (List.length l) (l ++ [x]) = l.
Proof. induction l as [|y l IH]; cbn; [reflexivity | now rewrite IH]. Qed.

Lemma remove_nth_length {A : Type} (l : list A) (i : nat) :
  (i < List.length l)%nat -> List.length (remove_nth i l) = pred (List.length l).
Proof.
  revert i. induction l as [|y l IH]; intros [|i] H; cbn in *; try lia.
  rewrite IH by lia. lia.
Qed.

Lemma indexOf_snoc_absent (l : list string) (x : string) :
  ~ In x l -> indexOf x (l ++ [x]) = Z.of_nat (List.length l).
Proof.
  induction l as [|y l IH]; cbn [indexOf app List.length In]; intros H.
  - now rewrite String.eqb_refl.
  - destruct (String.eqb_spec y x) as [->|Hne]; [exfalso; apply H; now left|].
    rewrite IH by tauto.
    destruct (Z.of_nat (List.length l) <? 0)%Z eqn:E; [apply Z.ltb_lt in E|]; lia.
Qed.

Lemma toggleList_occurrences (phone : string) (l : list string) :
  occurrences phone (ContactManager.toggleList phone l) =
  (if includes l phone then pred (occurrences phone l) else 1%nat) /\
  (forall other, other <> phone ->
     occurrences other (ContactManager.toggleList phone l) = occurrences other l).
Proof.
  unfold ContactManager.toggleList.
  destruct (includes l phone) eqn:I.
  - apply includes_In in I. destruct (indexOf_found phone l I) as [B N].
    replace (indexOf phone l >? -1)%Z with true by (symmetry; apply Z.gtb_lt; lia).
    split.
    + rewrite (occurrences_remove_nth l _ phone phone N).
      destruct (string_dec phone phone); [lia | congruence].
    + intros other Hne. rewrite (occurrences_remove_nth l _ phone other N).
      destruct (string_dec phone other); [congruence | lia].
  - assert (N : ~ In phone l) by (rewrite <- includes_In; congruence).
    apply indexOf_absent in N as E. rewrite E.
    change (-1 >? -1)%Z with false. cbv iota.
    split.
    + rewrite occurrences_snoc.
      destruct (string_dec phone phone); [|congruence].
      assert (occurrences phone l = 0)%nat by (destruct (occurrences phone l) eqn:O; [reflexivity | exfalso; apply N, occurrences_In; lia]).
      lia.
    + intros other Hne. rewrite occurrences_snoc.
      destruct (string_dec phone other); [congruence | lia].
Qed.

Lemma toggleList_twice (phone : string) (l : list string) :
  includes l phone = false -> ContactManager.toggleList phone (ContactManager.toggleList phone l) = l.
Proof.
  intros I. assert (N : ~ In phone l) by (rewrite <- includes_In; congruence).
  unfold ContactManager.toggleList at 2. apply indexOf_absent in N as E. rewrite E.
    change (-1 >? -1)%Z with false. cbv iota.
  unfold ContactManager.toggleList. rewrite (indexOf_snoc_absent l phone N).
  replace (Z.of_nat (List.length l) >? -1)%Z with true by (symmetry; apply Z.gtb_lt; lia).
  rewrite Nat2Z.id. apply remove_nth_last.
Qed.

Lemma toggleList_incl (phone : string) (l allowed : list string) :
  In phone allowed -> incl l allowed -> incl (ContactManager.toggleList phone l) allowed.
Proof.
  intros Hp Hl x. unfold ContactManager.toggleList.
  destruct (indexOf phone l >? -1)%Z.
  - intros H. apply Hl. eapply remove_nth_In, H.
  - intros H. apply in_app_or in H as [H | [<- | []]]; auto.
Qed.

(** X3.  Ticking a contact's checkbox flips one occurrence of its number in
    the selection: a number that is not selected is added once, a selected
    one loses one occurrence (so a number that was selected twice, as after
    adding two contacts with the same number, stays selected), and no other
    number is touched.  Ticking twice a number that was not selected gives the
    selection back.  The checkboxes are drawn again from the new selection;
    the contacts and what is stored are not touched. *)
Theorem toggleContact_flips (phone : string) (b : Book) :
  let b' := ContactManager.toggleContact phone b in
  occurrences phone (selected b') =
    (if includes (selected b) phone then pred (occurrences phone (selected b)) else 1%nat) /\
  (forall other, other <> phone ->
     occurrences other (selected b') = occurrences other (selected b)) /\
  (includes (selected b) phone = false ->
     selected (ContactManager.toggleContact phone b') = selected b) /\
  b'.(contactsCheckboxes) =
    map (fun c => (c, includes (selected b') c.(contact_phone))) b.(contacts) /\
  b'.(contacts) = b.(contacts) /\
  b'.(saved) = b.(saved).
Proof.
  assert (S : forall p x, selected (ContactManager.toggleContact p x) = ContactManager.toggleList p (selected x))
    by reflexivity.
  cbv zeta. rewrite !S.
  destruct (toggleList_occurrences phone (selected b)) as [H1 H2].
  split; [exact H1 | split; [exact H2 | split; [|split; [|split]]]]; try reflexivity.
  apply toggleList_twice.
Qed.

Lemma toggleContact_flips_witness :
  selected (ContactManager.toggleContact "5550100199"
              (ContactManager.toggleContact "5550100199"
                 (emptyBook (World0 browser AppState0)))) =
  selected (emptyBook (World0 browser AppState0)).
Proof.
  apply (proj1 (proj2 (proj2 (toggleContact_flips "5550100199"
                                 (emptyBook (World0 browser AppState0)))))).
  reflexivity.
Defined.

Lemma filter_other_occurrences (phone other : string) (l : list string) :
  other <> phone ->
  occurrences other (filter (fun p => negb (String.eqb p phone)) l) = occurrences other l.
Proof.
  intros Hne. unfold occurrences. induction l as [|y l IH]; [reflexivity|].
  cbn [filter]. destruct (String.eqb_spec y phone) as [->|Hy]; cbn [negb count_occ].
  - destruct (string_dec phone other); [congruence | exact IH].
  - rewrite IH. reflexivity.
Qed.

Lemma filter_removes (phone : string) (l : list string) :
  includes (filter (fun p => negb (String.eqb p phone)) l) phone = false.
Proof.
  destruct (includes _ phone) eqn:I; [|reflexivity].
  apply includes_In, filter_In in I as [_ I]. now rewrite String.eqb_refl in I.
Qed.

(** X4.  [removeContact] at an index of the list takes exactly that contact
    out of the list, unselects every occurrence of its number and no other
    number, draws the list again and stores contacts and selection; at an
    index past the end it throws and changes nothing. *)
Theorem removeContact_removes :
  (forall index b,
     (List.length b.(contacts) <= index)%nat ->
     ContactManager.removeContact index b = None) /\
  (forall index b c,
     nth_error b.(contacts) index = Some c ->
     exists b',
       ContactManager.removeContact index b = Some b' /\
       b'.(contacts) = remove_nth index b.(contacts) /\
       List.length b'.(contacts) = pred (List.length b.(contacts)) /\
       includes (selected b') c.(contact_phone) = false /\
       (forall other, other <> c.(contact_phone) ->
          occurrences other (selected b') = occurrences other (selected b)) /\
       b'.(contactsList) = b'.(contacts) /\
       b'.(nextToMapBtnHidden) = Nat.eqb (List.length b'.(contacts)) 0 /\
       b'.(saved) = Some (b'.(contacts), selected b')).
Proof.
  split.
  - intros index b H. unfold ContactManager.removeContact.
    apply nth_error_None in H. now rewrite H.
  - intros index b c H. unfold ContactManager.removeContact. rewrite H.
    eexists. split; [reflexivity|].
    assert (L : (index < List.length b.(contacts))%nat)
      by (apply nth_error_Some; congruence).
    split; [reflexivity|]. split; [apply remove_nth_length, L|].
    split; [apply filter_removes|].
    split; [intros other Hne; now apply filter_other_occurrences|].
    repeat split.
Qed.

Lemma removeContact_removes_witness :
  let c := mkContact "Ann" "+1 555-010-0199" in
  let b := ContactManager.addContact
             (typed "Ann" "+1 555-010-0199" (emptyBook (World0 browser AppState0))) in
  exists b',
    ContactManager.removeContact 0 b = Some b' /\
    b'.(contacts) = remove_nth 0 b.(contacts) /\
    List.length b'.(contacts) = pred (List.length b.(contacts)) /\
    includes (selected b') c.(contact_phone) = false /\
    (forall other, other <> c.(contact_phone) ->
       occurrences other (selected b') = occurrences other (selected b)) /\
    b'.(contactsList) = b'.(contacts) /\
    b'.(nextToMapBtnHidden) = Nat.eqb (List.length b'.(contacts)) 0 /\
    b'.(saved) = Some (b'.(contacts), selected b').
Proof.
  intros c b. apply (proj2 removeContact_removes 0%nat b c). reflexivity.
Defined.

Lemma dropEnd_last (p : Ascii.ascii -> bool) (s : string) (c : Ascii.ascii) :
  lastChar (dropEnd p s) = Some c -> p c = false.
Proof.
  induction s as [|a t IH]; cbn [dropEnd]; [discriminate|].
  destruct (dropEnd p t) as [|x t'] eqn:E.
  - destruct (p a) eqn:P; cbn; [discriminate|]. intros [= <-]. exact P.
  - intros H. apply IH. exact H.
Qed.

Lemma dropEnd_suffix (p : Ascii.ascii -> bool) (s : string) :
  exists t, s = (dropEnd p s ++ t)%string /\ allString p t = true.
Proof.
  induction s as [|a s IH]; cbn [dropEnd]; [exists ""; split; reflexivity|].
  destruct IH as (t & E & A).
  destruct (dropEnd p s) as [|x t'] eqn:D.
  - cbn in E. subst t. destruct (p a) eqn:P.
    + exists (String a s). split; [reflexivity | cbn; now rewrite P, A].
    + exists s. split; [reflexivity | exact A].
  - exists t. split; [cbn; f_equal; exact E | exact A].
Qed.

Lemma dropEnd_first (p : Ascii.ascii -> bool) (s : string) (c : Ascii.ascii) (t : string) :
  dropEnd p s = String c t -> exists t', s = String c t'.
Proof.
  destruct s as [|a s]; cbn [dropEnd]; [discriminate|].
  destruct (dropEnd p s); [destruct (p a)|]; intros [= -> _]; eauto.
Qed.

Lemma trimStart_first (s : string) (c : Ascii.ascii) (t : string) :
  trimStart s = String c t -> isSpace c = false.
Proof.
  induction s as [|a s IH]; cbn [trimStart]; [discriminate|].
  destruct (isSpace a) eqn:P; [exact IH|]. now intros [= <- _].
Qed.

Lemma trim_ends (s : string) :
  (forall c t, trim s = String c t -> isSpace c = false) /\
  (forall c, lastChar (trim s) = Some c -> isSpace c = false).
Proof.
  unfold trim. split.
  - intros c t H. destruct (dropEnd_first _ _ _ _ H) as (t' & E).
    eapply trimStart_first, E.
  - apply dropEnd_last.
Qed.

(** X5.  [addContact] trims the two inputs.  With an empty name, an empty
    number or a number that is not valid it shows the error and changes
    nothing else: contacts, selection, storage and the text of the inputs stay.
    Otherwise it appends one contact with the trimmed name and number (the
    number as typed, separators included, without white space at its ends),
    selects the number, clears the inputs, hides the error, draws the list,
    shows the button to the map and stores contacts and selection. *)
Theorem addContact_outcome (b : Book) :
  let name := trim b.(contactName) in
  let phone := trim b.(contactPhone) in
  let b' := ContactManager.addContact b in
  (name = "" \/ phone = "" \/ validPhone phone = false ->
     b'.(contacts) = b.(contacts) /\
     selected b' = selected b /\
     b'.(saved) = b.(saved) /\
     b'.(contactName) = b.(contactName) /\
     b'.(contactPhone) = b.(contactPhone) /\
     b'.(world).(trace) = b.(world).(trace) ++ [ShowError "contactsError"]) /\
  (name <> "" -> phone <> "" -> validPhone phone = true ->
     b'.(contacts) = b.(contacts) ++ [mkContact name phone] /\
     selected b' = selected b ++ [phone] /\
     (forall c t, phone = String c t -> isSpace c = false) /\
     (forall c, lastChar phone = Some c -> isSpace c = false) /\
     b'.(contactName) = "" /\
     b'.(contactPhone) = "" /\
     b'.(contactsList) = b'.(contacts) /\
     b'.(nextToMapBtnHidden) = false /\
     b'.(saved) = Some (b'.(contacts), selected b') /\
     b'.(world).(trace) = b.(world).(trace) ++ [HideError "contactsError"]).
Proof.
  cbv zeta. unfold ContactManager.addContact. split.
  - intros H.
    assert (E : String.eqb (trim b.(contactName)) "" || String.eqb (trim b.(contactPhone)) ""
                || negb (validPhone (trim b.(contactPhone))) = true).
    { destruct H as [-> | [-> | ->]]; cbn; now rewrite ?orb_true_r. }
    destruct (String.eqb _ "" || String.eqb _ "") eqn:E1;
      [|cbn in E; rewrite E]; repeat split.
  - intros Hn Hp Hv.
    apply String.eqb_neq in Hn, Hp. rewrite Hn, Hp, Hv. cbn [orb negb].
    destruct (trim_ends b.(contactPhone)) as [T1 T2].
    split; [reflexivity | split; [reflexivity | split; [exact T1 | split; [exact T2|]]]].
    split; [reflexivity | split; [reflexivity | split; [reflexivity|]]].
    split; [|split; reflexivity].
    cbn. rewrite length_app. cbn. apply Nat.eqb_neq. lia.
Qed.

Lemma addContact_outcome_witness :
  (ContactManager.addContact
     (typed "Ann" " +1 555-010-0199 " (emptyBook (World0 browser AppState0)))).(contacts) =
  [mkContact "Ann" "+1 555-010-0199"].
Proof.
  apply (proj2 (addContact_outcome
                  (typed "Ann" " +1 555-010-0199 " (emptyBook (World0 browser AppState0)))));
    [discriminate | discriminate | reflexivity].
Defined.

Lemma map_remove_nth_In {A B : Type} (f : A -> B) (l : list A) (i : nat) (c : A) (x : B) :
  nth_error l i = Some c -> f c <> x -> In x (map f l) -> In x (map f (remove_nth i l)).
Proof.
  revert i. induction l as [|y l IH]; intros [|i] H Hne Hin; cbn in *; try discriminate.
  - injection H as ->. destruct Hin as [Hin|Hin]; [congruence | exact Hin].
  - destruct Hin as [Hin|Hin]; [now left | right; eauto].
Qed.

Lemma addContact_consistent (b : Book) :
  consistent b -> consistent (ContactManager.addContact b).
Proof.
  intros (W & V & L). unfold ContactManager.addContact.
  destruct (String.eqb _ "" || String.eqb _ "") eqn:E1; [now repeat split|].
  destruct (validPhone _) eqn:Hv; cbn [negb]; [|now repeat split].
  split; [|split; [|reflexivity]].
  - unfold wellSelected. cbn. rewrite map_app. apply incl_app.
    + apply incl_appl. exact W.
    + apply incl_appr. cbn. intros x [<- | []]. now left.
  - unfold validContacts. cbn. apply Forall_app. split; [exact V|].
    constructor; [exact Hv | constructor].
Qed.

Lemma removeContact_consistent (index : nat) (b b' : Book) :
  consistent b -> ContactManager.removeContact index b = Some b' -> consistent b'.
Proof.
  intros (W & V & L). unfold ContactManager.removeContact.
  destruct (nth_error b.(contacts) index) as [c|] eqn:N; [|discriminate].
  intros [= <-]. split; [|split; [|reflexivity]].
  - unfold wellSelected. cbn. intros x Hx.
    apply filter_In in Hx as [Hx Hne].
    apply negb_true_iff, String.eqb_neq in Hne.
    apply (map_remove_nth_In contact_phone _ _ c x N); [congruence | apply W, Hx].
  - unfold validContacts in *. cbn. rewrite Forall_forall in *.
    intros x Hx. apply V. eapply remove_nth_In, Hx.
Qed.

Lemma toggleContact_consistent (phone : string) (b : Book) :
  consistent b -> In phone (map contact_phone b.(contacts)) ->
  consistent (ContactManager.toggleContact phone b).
Proof.
  intros (W & V & L) Hin. split; [|split; [exact V | exact L]].
  unfold wellSelected. cbn. apply toggleList_incl; assumption.
Qed.

(** X6.  The handlers of the contacts page keep the page consistent: after
    [addContact], after [removeContact], and after [toggleContact] of a listed
    number, every selected number is still the number of a listed contact,
    every listed number is still valid, and the list on the page is still the
    list of the state.  So the index that a remove button of the page carries
    is an index of the list, and clicking the button does not throw. *)
Theorem contacts_stay_consistent :
  (forall b, consistent b -> consistent (ContactManager.addContact b)) /\
  (forall index b b',
     consistent b -> ContactManager.removeContact index b = Some b' -> consistent b') /\
  (forall phone b,
     consistent b -> In phone (map contact_phone b.(contacts)) ->
     consistent (ContactManager.toggleContact phone b)) /\
  (forall index b,
     consistent b -> (index < List.length b.(contactsList))%nat ->
     exists b', ContactManager.removeContact index b = Some b').
Proof.
  split; [exact addContact_consistent|].
  split; [exact removeContact_consistent|].
  split; [exact toggleContact_consistent|].
  intros index b (_ & _ & L) H. rewrite L in H.
  unfold ContactManager.removeContact.
  destruct (nth_error b.(contacts) index) eqn:N; [eauto|].
  apply nth_error_None in N. lia.
Qed.

Lemma emptyBook_consistent (w : World) :
  w.(appState).(selectedContacts) = [] -> consistent (emptyBook w).
Proof.
  intros H. split; [|split; [constructor | reflexivity]].
  unfold wellSelected, selected. cbn. rewrite H. intros x [].
Qed.

Lemma contacts_stay_consistent_witness :
  consistent
    (ContactManager.addContact
       (typed "Ann" "+1 555-010-0199" (emptyBook (World0 browser AppState0)))).
Proof.
  apply (proj1 contacts_stay_consistent).
  exact (emptyBook_consistent (World0 browser AppState0) eq_refl).
Defined.

Lemma wellSelected_no_contacts (b : Book) :
  wellSelected b -> b.(contacts) = [] -> selected b = [].
Proof.
  unfold wellSelected. intros W E. rewrite E in W.
  destruct (selected b) as [|x l]; [reflexivity|].
  destruct (W x (or_introl eq_refl)).
Qed.

(** X7.  The contacts page and the map decide whether tracking can start.
    After a contact is accepted and a place is chosen, from the list of places
    or by a click on the map, [TrackingService.startTracking] passes its
    validation and asks the server to set the destination.  After the last
    contact is removed it is refused with the error on the message step, and
    asks the server for nothing, whatever the destination. *)
Theorem contacts_gate_start :
  (forall b place,
     trim b.(contactName) <> "" -> trim b.(contactPhone) <> "" ->
     validPhone (trim b.(contactPhone)) = true ->
     let w := MapService.selectPlace place (ContactManager.addContact b).(world) in
     TrackingService.startTracking w =
       (emit (Fetch SetDestination) (hideError "messageError" w), [AwaitFetchSetDestination])) /\
  (forall b lat lng,
     trim b.(contactName) <> "" -> trim b.(contactPhone) <> "" ->
     validPhone (trim b.(contactPhone)) = true ->
     let w := MapService.selectDestinationFromMap lat lng (ContactManager.addContact b).(world) in
     TrackingService.startTracking w =
       (emit (Fetch SetDestination) (hideError "messageError" w), [AwaitFetchSetDestination])) /\
  (forall index b b',
     consistent b -> ContactManager.removeContact index b = Some b' ->
     b'.(contacts) = [] ->
     TrackingService.startTracking b'.(world) = (showError "messageError" b'.(world), [])).
Proof.
  assert (A : forall b d,
     trim b.(contactName) <> "" -> trim b.(contactPhone) <> "" ->
     validPhone (trim b.(contactPhone)) = true ->
     let w := set_destination (Some d) (ContactManager.addContact b).(world) in
     TrackingService.startTracking w =
       (emit (Fetch SetDestination) (hideError "messageError" w), [AwaitFetchSetDestination])).
  { intros b d Hn Hp Hv. cbv zeta. unfold ContactManager.addContact.
    apply String.eqb_neq in Hn, Hp. rewrite Hn, Hp, Hv. cbn [orb negb].
    unfold TrackingService.startTracking. cbn.
    rewrite length_app, Nat.add_comm. reflexivity. }
  split; [intros b place; apply A|].
  split; [intros b lat lng; apply A|].
  intros index b b' C R E.
  pose proof (removeContact_consistent index b b' C R) as (W & _ & _).
  pose proof (wellSelected_no_contacts b' W E) as S. unfold selected in S.
  unfold TrackingService.startTracking. rewrite S.
  now destruct (destination _).
Qed.

Lemma contacts_gate_start_witness :
  snd (TrackingService.startTracking
         (MapService.selectPlace home
            (ContactManager.addContact
               (typed "Ann" "+1 555-010-0199" (emptyBook (World0 browser AppState0)))).(world)))
  = [AwaitFetchSetDestination].
Proof.
  rewrite (proj1 contacts_gate_start
             (typed "Ann" "+1 555-010-0199" (emptyBook (World0 browser AppState0))) home);
    [reflexivity | discriminate | discriminate | reflexivity].
Defined.

(** ** The address of the server *)

(** X8.  A stored, non-empty address of the server overrides the platform's
    default, on the web and in the native app alike.  What [getApiBase]
    returns is the stored text without its trailing slashes and nothing else:
    the stored text is the result followed by slashes only, and the result
    does not end in a slash.  Without a stored address, or with an empty one,
    the web page uses its own origin and the native app the emulator's
    address of the host. *)
Theorem getApiBase_override :
  (forall saved capacitor origin,
     saved <> "" ->
     let base := getApiBase (Some saved) capacitor origin in
     base = getApiBase (Some saved) (negb capacitor) "" /\
     (exists slashes,
        saved = (base ++ slashes)%string /\
        allString (fun c => Ascii.eqb c "/") slashes = true) /\
     (forall c, lastChar base = Some c -> c <> "/"%char)) /\
  (forall capacitor origin,
     getApiBase None capacitor origin = getApiBase (Some "") capacitor origin /\
     getApiBase None capacitor origin =
       if capacitor then "http://10.0.2.2:8000" else origin).
Proof.
  split.
  - intros saved capacitor origin H. cbv zeta. unfold getApiBase.
    apply String.eqb_neq in H. rewrite H. cbn [negb].
    split; [reflexivity|]. split; [apply dropEnd_suffix|].
    intros c Hc E. apply dropEnd_last in Hc. subst c. discriminate Hc.
  - intros [] origin; split; reflexivity.
Qed.

Lemma getApiBase_override_witness :
  exists slashes,
    "http://192.168.1.20:8000//" =
      (getApiBase (Some "http://192.168.1.20:8000//") true "" ++ slashes)%string /\
    allString (fun c => Ascii.eqb c "/") slashes = true.
Proof.
  apply (proj1 getApiBase_override "http://192.168.1.20:8000//" true ""). discriminate.
Defined.

(** ** Distances on the page *)

Lemma round_bounds (x : R) : IZR (round x) - 1 / 2 <= x < IZR (round x) + 1 / 2.
Proof.
  unfold round. pose proof (Zfloor_bound (x + 1 / 2)) as [L U]. lra.
Qed.

Lemma Rabs_le_both (a b : R) : Rabs a <= b -> - b <= a <= b.
Proof. unfold Rabs. destruct (Rcase_abs a); lra. Qed.

(** X9.  [formatDistance] shows a distance below 1000 m in whole metres,
    rounded to the nearest (a half upwards), so the number shown is off by at
    most half a metre; for a distance that is not negative the number is
    between 0 and 1000, and it is 1000 exactly from 999.5 m on.  From 1000 m
    on it shows kilometres with two decimals, rounded from the quotient as
    the division of doubles gives it: where that quotient is off by at most
    [eps], what is shown is off by at most 0.005 km and [eps], and it is at
    least 1.00 when the quotient is at least 1. *)
Theorem formatDistance_rounds :
  (forall div m,
     m < 1000 ->
     exists n,
       formatDistance div (Some m) = Metres n /\
       IZR n - 1 / 2 <= m < IZR n + 1 / 2 /\
       (0 <= m -> (0 <= n <= 1000)%Z /\ (n = 1000%Z <-> 9995 / 10 <= m))) /\
  (forall div m eps,
     1000 <= m ->
     Rabs (div m 1000 - m / 1000) <= eps ->
     exists hundredths,
       formatDistance div (Some m) = Kilometres hundredths /\
       Rabs (IZR hundredths / 100 - m / 1000) <= 1 / 200 + eps /\
       (1 <= div m 1000 -> (100 <= hundredths)%Z)).
Proof.
  split.
  - intros div m H. exists (round m). unfold formatDistance.
    destruct (Rlt_dec m 1000) as [_|N]; [|contradiction].
    pose proof (round_bounds m) as [L U].
    split; [reflexivity|]. split; [lra|]. intros Hm.
    assert (B0 : (0 <= round m)%Z).
    { apply Z.lt_succ_r, lt_IZR. rewrite succ_IZR. lra. }
    assert (B1 : (round m <= 1000)%Z).
    { apply Z.lt_succ_r, lt_IZR. rewrite succ_IZR. lra. }
    split; [lia|]. split.
    + intros E. rewrite E in L. lra.
    + intros G. apply Z.le_antisymm; [exact B1|].
      apply Z.lt_pred_le, lt_IZR. change (Z.pred 1000) with 999%Z. lra.
  - intros div m eps H Hq. exists (round (div m 1000 * 100)). unfold formatDistance.
    destruct (Rlt_dec m 1000) as [N|_]; [lra|].
    pose proof (round_bounds (div m 1000 * 100)) as [L U].
    apply Rabs_le_both in Hq.
    split; [reflexivity|]. split; [apply Rabs_le; lra|].
    intros Q. apply Z.lt_pred_le, lt_IZR. change (Z.pred 100) with 99%Z. lra.
Qed.

Lemma formatDistance_rounds_witness :
  exists hundredths,
    formatDistance (divOff (/ 9007199254740992)) (Some 1005) = Kilometres hundredths /\
    Rabs (IZR hundredths / 100 - 1005 / 1000) <= 1 / 200 + / 1000000 /\
    (1 <= divOff (/ 9007199254740992) 1005 1000 -> (100 <= hundredths)%Z).
Proof.
  apply (proj2 formatDistance_rounds (divOff (/ 9007199254740992)) 1005 (/ 1000000)).
  - lra.
  - unfold divOff. apply Rabs_le. lra.
Defined.

(** With a quotient of 1005 by 1000 that is off downwards by the 2^53rd part
    of it, as the double nearest to 1.005 is, the page shows 1.00km. *)
Example formatDistance_1005 :
  formatDistance (divOff (/ 9007199254740992)) (Some 1005) = Kilometres 100.
Proof.
  unfold formatDistance. destruct (Rlt_dec 1005 1000) as [N|_]; [lra|].
  f_equal. unfold round, divOff. apply Zfloor_eq. lra.
Qed.

(** X10.  The width that [updateProgressBar] gives the bar, for a radius above
    zero: it is a percentage between 0 and 100; it falls linearly from 100 at
    the destination to 0 at the edge of the geofence; and it is 0 everywhere
    outside the geofence, so the bar is empty on every fix that fails the
    arrival test [dist <= AppState.geofenceRadius], and a fix that fills any
    of it passes that test. *)
Theorem progress_inside_geofence (distance radius : R) :
  0 < radius ->
  0 <= progress distance radius <= 100 /\
  (0 <= distance <= radius -> progress distance radius = 100 * (1 - distance / radius)) /\
  (distance <= 0 -> progress distance radius = 100) /\
  (within distance radius = false -> progress distance radius = 0) /\
  (0 < progress distance radius -> within distance radius = true).
Proof.
  intros Hr. unfold progress.
  assert (D : distance / radius * radius = distance) by (field; lra).
  assert (W : within distance radius = false -> radius < distance).
  { unfold within. destruct (Rle_dec distance radius); [discriminate | lra]. }
  assert (Q : radius < distance -> 1 < distance / radius).
  { intros H. apply (Rmult_lt_reg_r radius); [exact Hr|]. lra. }
  assert (Q1 : distance <= radius -> distance / radius <= 1).
  { intros H. apply (Rmult_le_reg_r radius); [exact Hr|]. lra. }
  assert (Q0 : 0 <= distance -> 0 <= distance / radius).
  { intros H. apply (Rmult_le_reg_r radius); [exact Hr|]. lra. }
  assert (Qn : distance <= 0 -> distance / radius <= 0).
  { intros H. apply (Rmult_le_reg_r radius); [exact Hr|]. lra. }
  split; [|split; [|split; [|split]]].
  - unfold Rmax, Rmin. repeat destruct (Rle_dec _ _); lra.
  - intros [H0 H1]. specialize (Q0 H0). specialize (Q1 H1).
    unfold Rmax, Rmin. repeat destruct (Rle_dec _ _); lra.
  - intros H. specialize (Qn H).
    unfold Rmax, Rmin. repeat destruct (Rle_dec _ _); lra.
  - intros H. specialize (Q (W H)).
    unfold Rmax, Rmin. repeat destruct (Rle_dec _ _); lra.
  - intros H. unfold within. destruct (Rle_dec distance radius) as [|N]; [reflexivity|].
    exfalso. assert (G : radius < distance) by lra. specialize (Q G).
    revert H. unfold Rmax, Rmin. repeat destruct (Rle_dec _ _); lra.
Qed.

Lemma progress_inside_geofence_witness :
  0 <= progress 250 500 <= 100 /\
  (0 <= 250 <= 500 -> progress 250 500 = 100 * (1 - 250 / 500)) /\
  (250 <= 0 -> progress 250 500 = 100) /\
  (within 250 500 = false -> progress 250 500 = 0) /\
  (0 < progress 250 500 -> within 250 500 = true).
Proof.
  apply (progress_inside_geofence 250 500). lra.
Defined.

(** ** Stopping and cancelling *)

(** X11.  [stopTracking] on a state that holds nothing (no poll timer, no
    watch, no background watcher) calls nothing on the platform, leaves
    nothing pending and changes nothing. *)
Theorem stopTracking_idle (w : World) :
  w.(appState).(pollIntervalId) = None ->
  w.(appState).(watchId) = None ->
  w.(appState).(backgroundTrackingActive) = false ->
  LocationService.stopTracking w = (w, []).
Proof.
  destruct w as [e a l p tr]. destruct a. cbn. intros -> -> ->.
  unfold_program. cbn. rewrite andb_false_r. reflexivity.
Qed.

Lemma stopTracking_idle_witness :
  LocationService.stopTracking (World0 browser AppState0) = (World0 browser AppState0, []).
Proof.
  apply (stopTracking_idle (World0 browser AppState0)); reflexivity.
Defined.

Lemma cancelTrip_cancelled (w : World) : cancelled w (TrackingService.cancelTrip w).
Proof.
  unfold_program. case_stuck; unfold cancelled, reported, onePollTimer;
    (split; [repeat split; solve [auto | congruence]|]);
    (split; [repeat split|]);
    (split; [split; cbn; rewrite ?count_snoc, ?count_app, ?count_cons, ?count_nil; cbn; lia|]);
    (split; [cbn; lia|]);
    intros Hw; cbn in *; rewrite ?Hw;
    repeat match goal with
           | H : ?x = _ |- context [match ?x with _ => _ end] => rewrite H
           end;
    unfold del; cbn; rewrite ?Pos.eqb_refl;
    first [reflexivity | congruence].
Qed.

(** X12.  [cancelTrip] from any state: the trip is over at once, before the
    platform has answered the stop.  Tracking and arrival are off, location,
    destination and distance are gone, the count of updates is 0, the poll
    timer and the wake lock are dropped, and the permission step is shown;
    the selected contacts and the radius are kept.  The server is told of the
    reset once and of nothing else.  At most one [await] is left pending, the
    one of the stop.  Where the live timers were the stored poll timer, no
    timer is left. *)
Theorem cancelTrip_resets (w : World) :
  let s := TrackingService.cancelTrip w in
  let a := (fst s).(appState) in
  (a.(tracking) = false /\ a.(arrived) = false /\
   a.(currentLocation) = None /\ a.(destination) = None /\ a.(distance) = None /\
   a.(updateCount) = 0%nat /\ a.(pollIntervalId) = None /\
   a.(currentStep) = "permission" /\ (fst s).(wakeLock) = None) /\
  (a.(selectedContacts) = w.(appState).(selectedContacts) /\
   a.(geofenceRadius) = w.(appState).(geofenceRadius)) /\
  (count is_tripReset (fst s).(trace) = S (count is_tripReset w.(trace)) /\
   reported (fst s) = reported w) /\
  (List.length (snd s) <= 1)%nat /\
  (onePollTimer w -> (fst s).(plat).(timers) = []).
Proof. exact (cancelTrip_cancelled w). Qed.

Lemma cancelTrip_resets_witness :
  let w := fst (run (start0 native) nativeStart) in
  (w.(appState).(tracking) = true /\ w.(plat).(timers) = [2%positive]) /\
  (fst (TrackingService.cancelTrip w)).(plat).(timers) = [].
Proof.
  intros w. split.
  - subst w. run_events. repeat split.
  - apply (proj2 (proj2 (proj2 (proj2 (cancelTrip_resets w))))).
    subst w. unfold onePollTimer. run_events. reflexivity.
Defined.

(** X13.  The poll timer does not leak.  From a state whose live timers are
    the stored poll timer (as at the start of the page, where there is none),
    whatever happens next (fixes, errors, ticks, answers and rejections of
    the platform, the page hidden and shown, the buttons pressed in any
    order), the live timers are still the stored poll timer, so there is at
    most one, and a [stopTracking] then leaves none. *)
Theorem poll_timer_never_leaks (s : Sys) (evs : list Event) :
  onePollTimer (fst s) ->
  let w := fst (run s evs) in
  onePollTimer w /\
  (List.length w.(plat).(timers) <= 1)%nat /\
  (fst (LocationService.stopTracking w)).(plat).(timers) = [] /\
  (fst (LocationService.stopTracking w)).(appState).(pollIntervalId) = None.
Proof.
  intros H. cbv zeta. apply (run_onePollTimer evs) in H.
  set (w := fst (run s evs)) in *. clearbody w.
  split; [exact H|]. unfold onePollTimer in H.
  split; [rewrite H; destruct (pollIntervalId _); cbn; lia|].
  unfold_program. case_stuck;
    cbn in *; rewrite ?H; unfold del; cbn; rewrite ?Pos.eqb_refl; cbn;
    split; first [reflexivity | congruence].
Qed.

Lemma poll_timer_never_leaks_witness :
  (List.length
     (fst (run (World0 native (ready atHome home contacts1), [])
             [ClickStartTracking; Settle 0 Resolved; Settle 0 Resolved;
              AppStateChange true; Settle 0 Resolved])).(plat).(timers) <= 1)%nat.
Proof.
  apply (proj1 (proj2 (poll_timer_never_leaks
                         (World0 native (ready atHome home contacts1), [])
                         [ClickStartTracking; Settle 0 Resolved; Settle 0 Resolved;
                          AppStateChange true; Settle 0 Resolved] eq_refl))).
Defined.

(** ** Without a destination *)

Ltac quiet_step :=
  unfold_program; case_stuck; unfold unreported, reported in *;
  cbn in *; rewrite ?count_snoc, ?count_app, ?count_cons, ?count_nil; cbn;
  repeat split; first [assumption | congruence | lia].

Lemma resume_unreported (t : Task) (r : Response) (w : World) :
  w.(appState).(destination) = None -> unreported w (resume t r w).
Proof.
  intros Hd. destruct t; try destruct callback; cbn [resume]; quiet_step.
Qed.

Lemma handlers_unreported (w : World) :
  w.(appState).(destination) = None ->
  (forall loc, unreported w (navWatchSuccess TrackingCallback loc w)) /\
  unreported w (navWatchError w) /\
  (forall position err, unreported w (capWatchCallback TrackingCallback position err w)) /\
  (forall location error,
     unreported w (bgWatcherCallback TrackingCallback location error w)) /\
  unreported w (pollTick TrackingCallback w) /\
  (forall visible, unreported w (onVisibilityChange visible w)) /\
  (forall isActive, unreported w (onAppStateChange isActive w)) /\
  unreported w (TrackingService.startTracking w) /\
  unreported w (TrackingService.cancelTrip w) /\
  unreported w (lift TrackingService.resetApp w).
Proof.
  intros Hd.
  repeat match goal with |- _ /\ _ => split end; intros; quiet_step.
Qed.

Lemma unreported_refl (w : World) (ts : list Task) :
  w.(appState).(destination) = None -> unreported w (w, ts).
Proof. intros H. repeat split; auto. Qed.

Lemma deliver_unreported (k : Seg) (s : Sys) :
  unreported (fst s) (k (fst s)) -> unreported (fst s) (deliver k s).
Proof.
  destruct s as [w ts]. unfold deliver, unreported. cbn [fst snd].
  destruct (k w) as [w' new]. auto.
Qed.

Lemma step_unreported (s : Sys) (ev : Event) :
  (fst s).(appState).(destination) = None -> unreported (fst s) (step s ev).
Proof.
  intros Hd. pose proof (unreported_refl (fst s) (snd s) Hd) as R.
  pose proof (handlers_unreported (fst s) Hd)
    as (K1 & K2 & K3 & K4 & K5 & K6 & K7 & K8 & K9 & K10).
  destruct s as [w ts]. cbn [fst snd] in *.
  destruct ev; cbn [step fst snd]; unfold guarded.
  6: { destruct (nth_error ts i) as [t|]; [|exact R].
       apply (deliver_unreported (resume t r) (w, remove_nth i ts)).
       apply resume_unreported, Hd. }
  all: try match goal with |- context [if ?b then _ else _] => destruct b; [|exact R] end.
  all: apply (deliver_unreported _ (w, ts)); cbn [fst]; auto.
Qed.

Lemma run_unreported (evs : list Event) (s : Sys) :
  (fst s).(appState).(destination) = None -> unreported (fst s) (run s evs).
Proof.
  revert s. induction evs as [|ev evs IH]; intros s Hd; cbn [run fold_left].
  - destruct s. now apply unreported_refl.
  - destruct (step_unreported s ev Hd) as (D1 & R1 & A1).
    destruct (IH (step s ev) D1) as (D2 & R2 & A2).
    split; [exact D2 | split; [exact (eq_trans R2 R1) | auto]].
Qed.

Lemma resetApp_eq (w : World) :
  TrackingService.resetApp w =
  mkWorld w.(env)
    (mkAppState "permission" None None w.(appState).(selectedContacts) false false
       w.(appState).(geofenceRadius) None 0 w.(appState).(watchId)
       w.(appState).(lastTrackingCallback) w.(appState).(pollIntervalId)
       w.(appState).(backgroundTrackingActive) w.(appState).(backgroundWatcherId))
    None (releaseWakeLock w).(plat)
    (((releaseWakeLock w).(trace) ++ [HideTrackingBanner]) ++ [ShowStep "permission"]).
Proof.
  destruct w as [e a l p tr]. destruct a, l, p; vm_compute; reflexivity.
Qed.

Lemma pageStep_unreported (s : Sys) (pe : PageEvent) :
  (fst s).(appState).(destination) = None ->
  keepsChoice pe = true ->
  unreported (fst s) (pageStep s pe).
Proof.
  intros Hd. destruct pe as [ev | place | lat lng | lat lng];
    cbn [keepsChoice chooses negb pageStep]; try discriminate; intros _.
  - apply step_unreported, Hd.
  - unfold dragend. rewrite Hd. destruct s. now apply unreported_refl.
Qed.

Lemma pageRun_unreported (evs : list PageEvent) (s : Sys) :
  (fst s).(appState).(destination) = None ->
  forallb keepsChoice evs = true ->
  unreported (fst s) (pageRun s evs).
Proof.
  revert s. induction evs as [|ev evs IH]; intros s Hd Hevs; cbn [pageRun fold_left].
  - destruct s. now apply unreported_refl.
  - cbn [forallb] in Hevs. apply andb_prop in Hevs as [Hev Hevs].
    destruct (pageStep_unreported s ev Hd Hev) as (D1 & R1 & A1).
    destruct (IH (pageStep s ev) D1 Hevs) as (D2 & R2 & A2).
    split; [exact D2 | split; [exact (eq_trans R2 R1) | auto]].
Qed.

(** X14.  Without a destination the tracking engine reports nothing.  Each
    handler of the engine (the callbacks of the watches and of the poll
    timer, the continuations of its awaits, the [visibilitychange] and
    [appStateChange] listeners, and the buttons Start Tracking, Cancel and
    Start New Journey), run while [AppState.destination] is [null], requests
    neither [/gps] nor [/trip/set-destination] nor [/send-message], does not
    make the trip arrive, and leaves the destination [null].  So this holds
    over every sequence of these events, the marker dragged in between, for
    as long as no place is selected and the map is not clicked; and since
    Cancel and Start New Journey clear the destination, it holds from a click
    on either of them until a destination is chosen again.  (The button of the
    permission step, which reports the first position before there is a
    destination, is not a handler of the engine and not among these
    events.) *)
Theorem no_destination_no_report :
  (forall s ev,
     (fst s).(appState).(destination) = None ->
     (fst (step s ev)).(appState).(destination) = None /\
     reported (fst (step s ev)) = reported (fst s) /\
     ((fst s).(appState).(arrived) = false ->
      (fst (step s ev)).(appState).(arrived) = false)) /\
  (forall s evs,
     (fst s).(appState).(destination) = None ->
     forallb keepsChoice evs = true ->
     (fst (pageRun s evs)).(appState).(destination) = None /\
     reported (fst (pageRun s evs)) = reported (fst s) /\
     ((fst s).(appState).(arrived) = false ->
      (fst (pageRun s evs)).(appState).(arrived) = false)) /\
  (forall s evs,
     forallb keepsChoice evs = true ->
     reported (fst (pageRun s (Engine ClickCancelTrip :: evs))) = reported (fst s) /\
     reported (fst (pageRun s (Engine ClickStartNewJourney :: evs))) = reported (fst s)).
Proof.
  split; [intros s ev Hd; exact (step_unreported s ev Hd)|].
  split; [intros s evs Hd Hevs; exact (pageRun_unreported evs s Hd Hevs)|].
  assert (A : forall k s evs,
            forallb keepsChoice evs = true ->
            (forall w, (fst (k w)).(appState).(destination) = None /\
                       reported (fst (k w)) = reported w) ->
            reported (fst (pageRun (deliver k s) evs)) = reported (fst s)).
  { intros k [w ts] evs Hevs H. destruct (H w) as [D R].
    assert (E : fst (deliver k (w, ts)) = fst (k w))
      by (unfold deliver; cbn [fst snd]; now destruct (k w)).
    assert (D' : (fst (deliver k (w, ts))).(appState).(destination) = None)
      by (rewrite E; exact D).
    destruct (pageRun_unreported evs _ D' Hevs) as (_ & R' & _).
    rewrite R', E. exact R. }
  intros s evs Hevs. split; cbn [pageRun fold_left pageStep step]; apply A;
    try exact Hevs; intros w.
  - destruct (cancelTrip_cancelled w) as ((_ & _ & _ & D & _) & _ & (_ & R) & _).
    auto.
  - unfold lift. cbn [fst]. rewrite resetApp_eq. split; [reflexivity|].
    unfold reported, releaseWakeLock. cbn [trace].
    destruct (wakeLock w); cbn [trace set_wakeLock del_lock upd_plat emit];
      rewrite ?count_snoc; cbn; lia.
Qed.

Lemma no_destination_no_report_witness :
  let s := run (start0 native) cancelWatchKept in
  let evs := [Engine (CapWatch 1 (Some atHome) false); DragEnd 1 1] in
  ((fst s).(plat).(capWatches) = [1%positive] /\
   (fst s).(appState).(updateCount) = 0%nat /\
   (fst (pageRun s evs)).(appState).(updateCount) = 1%nat) /\
  (fst (pageRun s evs)).(appState).(destination) = None /\
  reported (fst (pageRun s evs)) = reported (fst s) /\
  ((fst s).(appState).(arrived) = false ->
   (fst (pageRun s evs)).(appState).(arrived) = false).
Proof.
  intros s evs. split.
  - subst s evs. run_events. repeat split.
  - apply (proj1 (proj2 no_destination_no_report) s evs).
    + subst s. run_events. reflexivity.
    + reflexivity.
Defined.

(** ** One watch in the browser *)

Ltac browser_case :=
  unfold_program; case_stuck;
  unfold keepsQuiet, oneNavWatch, del in *; cbn in *;
  repeat match goal with H : navWatches _ = _ |- _ => rewrite H in * end;
  repeat first
    [ progress cbn
    | rewrite Pos.eqb_refl
    | match goal with
      | H : ?x = _ |- context [match ?x with _ => _ end] => rewrite H
      end ];
  rewrite ?count_nil, ?count_cons; cbn;
  repeat split; first [reflexivity | congruence | lia].

Lemma resume_browserQuiet (t : Task) (r : Response) (w : World) :
  is_starting t = false ->
  w.(env).(isCapacitor) = false ->
  w.(env).(navGeolocation) = true ->
  oneNavWatch w ->
  keepsQuiet w (resume t r w).
Proof.
  destruct w as [e a l p tr]. destruct e. cbn.
  intros Ht -> ->. revert Ht.
  destruct t; try destruct callback; cbn [resume is_starting]; intros Ht Hw;
    try discriminate Ht; browser_case.
Qed.

Lemma deliver_browserQuiet (k : Seg) (s : Sys) :
  browserQuiet s -> keepsQuiet (fst s) (k (fst s)) -> browserQuiet (deliver k s).
Proof.
  destruct s as [w ts]. unfold browserQuiet, keepsQuiet, deliver. cbn [fst snd].
  intros (Hc & Hn & Hw & Hts). destruct (k w) as [w' new]. cbn [fst snd].
  intros (E & W & T). rewrite E, count_app, T, Hts. auto.
Qed.

Lemma handlers_browserQuiet (w : World) :
  w.(env).(isCapacitor) = false ->
  w.(env).(navGeolocation) = true ->
  oneNavWatch w ->
  (forall loc, keepsQuiet w (navWatchSuccess TrackingCallback loc w)) /\
  keepsQuiet w (navWatchError w) /\
  (forall position err, keepsQuiet w (capWatchCallback TrackingCallback position err w)) /\
  (forall location error,
     keepsQuiet w (bgWatcherCallback TrackingCallback location error w)) /\
  keepsQuiet w (pollTick TrackingCallback w) /\
  (forall visible, keepsQuiet w (onVisibilityChange visible w)) /\
  (forall isActive, keepsQuiet w (onAppStateChange isActive w)) /\
  keepsQuiet w (TrackingService.cancelTrip w) /\
  keepsQuiet w (lift TrackingService.resetApp w).
Proof.
  intros Hc Hn Hw.
  assert (R : keepsQuiet w (lift TrackingService.resetApp w)).
  { clear Hc Hn. destruct w as [e a l p tr].
    destruct a, p, l; unfold oneNavWatch in Hw; cbn in Hw; subst;
      vm_compute; repeat split. }
  repeat match goal with |- _ /\ _ => split end; intros; [idtac .. | exact R];
    clear R; destruct w as [e a l p tr]; destruct e; cbn in Hc, Hn; subst; browser_case.
Qed.

Lemma step_browserQuiet (s : Sys) (ev : Event) :
  ev <> ClickStartTracking -> browserQuiet s -> browserQuiet (step s ev).
Proof.
  intros Hev Hs. pose proof Hs as (Hc & Hn & Hw & Hts). destruct s as [w ts].
  cbn [fst snd] in Hc, Hn, Hw, Hts.
  pose proof (handlers_browserQuiet w Hc Hn Hw)
    as (K1 & K2 & K3 & K4 & K5 & K6 & K7 & K8 & K9).
  destruct ev; try congruence; clear Hev; cbn [step fst snd]; unfold guarded.
  6: { destruct (nth_error ts i) as [t|] eqn:N; [|exact Hs].
       pose proof (count_remove_nth is_starting ts i t N) as C.
       assert (Ht : is_starting t = false)
         by (destruct (is_starting t); cbn in C; [lia | reflexivity]).
       rewrite Ht in C. cbn in C.
       apply (deliver_browserQuiet (resume t r) (w, remove_nth i ts)).
       - repeat split; auto. cbn [snd]. lia.
       - apply resume_browserQuiet; assumption. }
  all: try match goal with |- context [if ?b then _ else _] => destruct b; [|exact Hs] end.
  all: apply deliver_browserQuiet; [exact Hs|]; cbn [fst]; auto.
Qed.

Lemma run_browserQuiet (evs : list Event) (s : Sys) :
  ~ In ClickStartTracking evs -> browserQuiet s -> browserQuiet (run s evs).
Proof.
  revert s. induction evs as [|ev evs IH]; intros s Hn Hs; cbn; [exact Hs|].
  apply IH; [intros H; apply Hn; now right|].
  apply step_browserQuiet; [intros ->; apply Hn; now left | exact Hs].
Qed.

(** X15.  In a browser a trip has one geolocation watch.  From a page that
    does not run in Capacitor, has [navigator.geolocation], whose live watches
    are the stored one and where no start is under way, whatever happens next
    short of another click on the start button (fixes, errors, answers and
    rejections, the page hidden and shown again, the trip cancelled or
    finished), the live watches are still exactly the stored one; so showing
    the page again never registers a second watch there, and once the stop
    has cleared [watchId] no watch is left. *)
Theorem browser_keeps_one_watch (s : Sys) (evs : list Event) :
  browserQuiet s ->
  ~ In ClickStartTracking evs ->
  let w := fst (run s evs) in
  oneNavWatch w /\
  (List.length w.(plat).(navWatches) <= 1)%nat /\
  (w.(appState).(watchId) = None -> w.(plat).(navWatches) = []).
Proof.
  intros Hs Hn. cbv zeta.
  destruct (run_browserQuiet evs s Hn Hs) as (_ & _ & W & _).
  split; [exact W|]. unfold oneNavWatch in W. rewrite W.
  destruct (watchId _); cbn; split; first [lia | congruence].
Qed.

Lemma browser_keeps_one_watch_witness :
  let s := run (start0 browser) browserStart in
  let evs := [VisibilityChange false; VisibilityChange true; Settle 1 Resolved;
              NavPosition 1 atHome] in
  ((fst s).(appState).(tracking) = true /\
   (fst s).(plat).(navWatches) = [1%positive] /\
   (fst (run s evs)).(appState).(updateCount) = 1%nat) /\
  oneNavWatch (fst (run s evs)) /\
  (List.length (fst (run s evs)).(plat).(navWatches) <= 1)%nat /\
  ((fst (run s evs)).(appState).(watchId) = None ->
   (fst (run s evs)).(plat).(navWatches) = []).
Proof.
  intros s evs. split.
  - subst s evs. run_events. repeat split.
  - apply (browser_keeps_one_watch s evs).
    + subst s. unfold browserQuiet, oneNavWatch. run_events. repeat split.
    + intros [H | [H | [H | [H | []]]]]; discriminate H.
Defined.

(** ** The arrival message *)

Ltac unsent_step :=
  unfold_program; case_stuck; unfold unsent;
  tally; first [reflexivity | lia].

Lemma resume_unsent (t : Task) (r : Response) (w : World) :
  (forall loc, t <> AwaitFetchGps loc) -> unsent w (resume t r w).
Proof.
  intros Ht. destruct t; try destruct callback; cbn [resume];
    try (exfalso; eapply Ht; reflexivity); unsent_step.
Qed.

Lemma handlers_unsent (w : World) :
  (forall loc, unsent w (navWatchSuccess TrackingCallback loc w)) /\
  unsent w (navWatchError w) /\
  (forall position err, unsent w (capWatchCallback TrackingCallback position err w)) /\
  (forall location error,
     unsent w (bgWatcherCallback TrackingCallback location error w)) /\
  unsent w (pollTick TrackingCallback w) /\
  (forall visible, unsent w (onVisibilityChange visible w)) /\
  (forall isActive, unsent w (onAppStateChange isActive w)) /\
  unsent w (TrackingService.startTracking w) /\
  unsent w (TrackingService.cancelTrip w) /\
  unsent w (lift TrackingService.resetApp w).
Proof.
  repeat match goal with |- _ /\ _ => split end; intros; unsent_step.
Qed.

Lemma trackingCallback_resume_sent (loc : Loc) (r : Response) (w : World) :
  sent (fst (TrackingService.trackingCallback_resume loc r w)) <> sent w ->
  insideGeofence loc w /\ w.(appState).(arrived) = false /\
  sent (fst (TrackingService.trackingCallback_resume loc r w)) = S (sent w).
Proof.
  unfold insideGeofence, TrackingService.trackingCallback_resume.
  destruct (destination (appState w)) as [d|] eqn:D; [|intros H; exfalso; apply H; reflexivity].
  cbn [appState geofenceRadius arrived set_distance emit upd_app
       TrackingService.updateProgressBar].
  destruct (within _ _) eqn:W; cbn [andb].
  - destruct (arrived (appState w)) eqn:A; cbn [negb].
    + intros H. exfalso. apply H. unfold sent. cbn. rewrite !count_snoc. cbn. lia.
    + intros _. split; [eauto|]. split; [reflexivity|].
      unfold_program. case_stuck; tally; lia.
  - intros H. exfalso. apply H. unfold sent. cbn. rewrite !count_snoc. cbn. lia.
Qed.

Lemma deliver_unsent (k : Seg) (s : Sys) :
  unsent (fst s) (k (fst s)) -> sent (fst (deliver k s)) = sent (fst s).
Proof.
  destruct s as [w ts]. unfold deliver, unsent. cbn [fst snd].
  now destruct (k w).
Qed.

(** X16.  The arrival message is asked for in one place only.  A step of the
    page changes the number of arrival messages requested only when the
    server answers (or fails to answer) the report of a fix, that fix is at
    most the radius away from the destination, and the trip has not arrived
    yet; it then asks for exactly one.  No button, no timer, no change of
    visibility, no error and no fix outside the geofence makes the page send
    the message. *)
Theorem message_only_inside_geofence (s : Sys) (ev : Event) :
  sent (fst (step s ev)) <> sent (fst s) ->
  exists i r loc,
    ev = Settle i r /\
    nth_error (snd s) i = Some (AwaitFetchGps loc) /\
    insideGeofence loc (fst s) /\
    (fst s).(appState).(arrived) = false /\
    sent (fst (step s ev)) = S (sent (fst s)).
Proof.
  destruct s as [w ts]. cbn [fst snd].
  pose proof (handlers_unsent w) as (K1 & K2 & K3 & K4 & K5 & K6 & K7 & K8 & K9 & K10).
  destruct ev; cbn [step fst snd]; unfold guarded.
  6: { destruct (nth_error ts i) as [t|] eqn:N; [|intros H; now destruct H].
       assert (E : forall k, fst (deliver k (w, remove_nth i ts)) = fst (k w))
         by (intros k; unfold deliver; cbn [fst snd]; now destruct (k w)).
       rewrite E.
       destruct t;
         try (intros H; exfalso; apply H;
              apply (resume_unsent _ r w); intros loc0; discriminate).
       cbn [resume]. intros H.
       destruct (trackingCallback_resume_sent loc r w H) as (G & A & S1).
       exists i, r, loc. auto. }
  all: try match goal with |- context [if ?b then _ else _] =>
             destruct b; [|intros H; now destruct H] end.
  all: intros H; exfalso; apply H;
    apply (deliver_unsent _ (w, ts)); cbn [fst]; auto.
Qed.

Lemma message_only_inside_geofence_witness :
  exists i r loc,
    Settle 0 Resolved = Settle i r /\
    nth_error [AwaitFetchGps atHome] i = Some (AwaitFetchGps loc) /\
    insideGeofence loc (World0 browser (ready atHome home contacts1)) /\
    (World0 browser (ready atHome home contacts1)).(appState).(arrived) = false /\
    sent (fst (step (World0 browser (ready atHome home contacts1), [AwaitFetchGps atHome])
                 (Settle 0 Resolved))) =
    S (sent (World0 browser (ready atHome home contacts1))).
Proof.
  apply (message_only_inside_geofence
           (World0 browser (ready atHome home contacts1), [AwaitFetchGps atHome])
           (Settle 0 Resolved)).
  run_events. discriminate.
Defined.

(** ** The distance on the sphere *)

Lemma asin_nonneg (y : R) : 0 <= y <= 1 -> 0 <= asin y.
Proof.
  intros [H0 H1]. destruct (Rle_or_lt 0 (asin y)) as [H|H]; [exact H|].
  pose proof (asin_bound y) as [L U]. pose proof PI_RGT_0 as Hpi.
  assert (S : sin (asin y) < 0) by (apply sin_lt_0_var; lra).
  rewrite sin_asin in S by lra. lra.
Qed.

Lemma haversine_range (p1 p2 u v : R) :
  - (PI / 2) <= p1 <= PI / 2 -> - (PI / 2) <= p2 <= PI / 2 ->
  p2 - p1 = 2 * u ->
  0 <= sin u * sin u + cos p1 * cos p2 * sin v * sin v <= 1.
Proof.
  intros H1 H2 E.
  assert (C1 : 0 <= cos p1) by (apply cos_ge_0; lra).
  assert (C2 : 0 <= cos p2) by (apply cos_ge_0; lra).
  pose proof (SIN_bound v) as [Sv1 Sv2].
  pose proof (COS_bound (p2 + p1)) as [_ Cs].
  pose proof (cos_plus p2 p1) as Pp. pose proof (cos_minus p2 p1) as Pm.
  rewrite E, cos_2a_sin in Pm.
  assert (Q : 0 <= sin v * sin v <= 1) by nra.
  assert (P : 0 <= cos p1 * cos p2) by nra.
  assert (B : cos p1 * cos p2 <= 1 - sin u * sin u) by nra.
  split; nra.
Qed.

(** X17.  For latitudes between -90 and 90 degrees [calculateDistance] is
    never negative and never more than half the circumference of the sphere,
    and between two points of one meridian it is the length of the arc: the
    radius times the difference of the latitudes in radians (111.19 km for
    each degree). *)
Theorem calculateDistance_arc :
  (forall lat1 lng1 lat2 lng2,
     -90 <= lat1 <= 90 -> -90 <= lat2 <= 90 ->
     0 <= Utils.calculateDistance lat1 lng1 lat2 lng2 <= 6371000 * PI) /\
  (forall lat1 lat2 lng,
     -90 <= lat1 <= 90 -> -90 <= lat2 <= 90 ->
     Utils.calculateDistance lat1 lng lat2 lng =
     6371000 * (Rabs (lat2 - lat1) * PI / 180)).
Proof.
  pose proof PI_RGT_0 as Hpi. split.
  - intros lat1 lng1 lat2 lng2 H1 H2. unfold Utils.calculateDistance.
    set (u := (lat2 - lat1) * PI / 180 / 2).
    set (v := (lng2 - lng1) * PI / 180 / 2).
    assert (A : 0 <= sin u * sin u +
                     cos (lat1 * PI / 180) * cos (lat2 * PI / 180) * sin v * sin v <= 1).
    { apply haversine_range; [split; nra | split; nra | unfold u; lra]. }
    set (a := sin u * sin u + _) in *.
    assert (Y : 0 <= sqrt a <= 1).
    { split; [apply sqrt_pos|]. rewrite <- sqrt_1. apply sqrt_le_1_alt. lra. }
    pose proof (asin_nonneg _ Y) as L. pose proof (asin_bound (sqrt a)) as [_ U].
    split; nra.
  - intros lat1 lat2 lng H1 H2. unfold Utils.calculateDistance.
    replace ((lng - lng) * PI / 180 / 2) with 0 by lra. rewrite sin_0.
    set (u := (lat2 - lat1) * PI / 180 / 2).
    replace (sin u * sin u + cos (lat1 * PI / 180) * cos (lat2 * PI / 180) * 0 * 0)
      with (sin u * sin u) by ring.
    destruct (Rle_or_lt lat1 lat2) as [Hle|Hlt].
    + rewrite Rabs_right by lra.
      assert (Hu : 0 <= u <= PI / 2) by (unfold u; split; nra).
      rewrite sqrt_square by (apply sin_ge_0; lra).
      rewrite asin_sin by lra. unfold u. lra.
    + rewrite Rabs_left by lra.
      assert (Hu : 0 <= - u <= PI / 2) by (unfold u; split; nra).
      replace (sin u * sin u) with (sin (- u) * sin (- u)) by (rewrite sin_neg; ring).
      rewrite sqrt_square by (apply sin_ge_0; lra).
      rewrite asin_sin by lra. unfold u. lra.
Qed.

Lemma calculateDistance_arc_witness :
  Utils.calculateDistance 0 0 1 0 = 6371000 * (Rabs (1 - 0) * PI / 180).
Proof.
  apply (proj2 calculateDistance_arc 0 1 0); lra.
Defined.

(** ** Fixes that come after the trip has stopped, over whole runs *)







